(** * LLMShell command-safety analyzer: a shallow embedding

    This development embeds [src/llmshell/safety.py] (the rule tables,
    [SafetyAnalyzer.analyze_command], [_analyze_context],
    [_analyze_structure]) and the confirmation protocol of
    [src/llmshell/core.py] ([_handle_natural_language],
    [_handle_direct_command]).

    The analyzer calls three pieces of the Python standard library:
    [str] methods, [re.search] and [shlex.split] (plus [pathlib.Path] for
    the working directory).  They are modelled here by executable
    definitions so that the analyzer can be run on concrete commands:
    - a character is a code point below 256 (the 8-bit [ascii] type, read
      as Latin-1); commands with code points above U+00FF are outside the
      model;
    - [re.search] is modelled on the fragment of the pattern language the
      rule tables use, by regular-expression derivatives;
    - [shlex.split] is modelled by the POSIX-mode state machine of
      [shlex.shlex.read_token] with [whitespace_split] set and no
      commenters. *)

From Stdlib Require Import String Ascii List NArith ZArith Bool Lia.
From stdpp Require Import base strings list gmap sets.
Import ListNotations.
Open Scope string_scope.

(** ** Python [str] primitives *)
Module Py.

Definition code (c : ascii) : N := N_of_ascii c.

Definition between (lo hi : N) (c : ascii) : bool :=
  ((lo <=? code c) && (code c <=? hi))%N.

(** [str.isspace] on one character (also the class the [re] module uses
    for [\s] on [str] patterns): TAB..CR, FS..US, space, NEL, NBSP. *)
Definition isspace (c : ascii) : bool :=
  between 9 13 c || between 28 32 c
  || (code c =? 133)%N || (code c =? 160)%N.

(** Word characters of [re] for [str] patterns: [str.isalnum] or
    underscore.  Below 128 these are [A-Za-z0-9_]. *)
Definition isword (c : ascii) : bool :=
  between 48 57 c || between 65 90 c || between 97 122 c
  || (code c =? 95)%N
  || (code c =? 170)%N || (code c =? 178)%N || (code c =? 179)%N
  || (code c =? 181)%N || (code c =? 185)%N || (code c =? 186)%N
  || between 188 190 c || between 192 214 c || between 216 246 c
  || between 248 255 c.

(** [str.lower] on one character: [A-Z] and the Latin-1 capitals. *)
Definition lower_char (c : ascii) : ascii :=
  if between 65 90 c || (between 192 222 c && negb (code c =? 215)%N)
  then ascii_of_N (code c + 32) else c.

Fixpoint lower (s : string) : string :=
  match s with
  | EmptyString => EmptyString
  | String c s' => String (lower_char c) (lower s')
  end.

Fixpoint lstrip (s : string) : string :=
  match s with
  | EmptyString => EmptyString
  | String c s' => if isspace c then lstrip s' else s
  end.

(** [rstrip] keeps a character when it is not white space or when
    something remains to its right after stripping. *)
Fixpoint rstrip (s : string) : string :=
  match s with
  | EmptyString => EmptyString
  | String c s' =>
      match rstrip s' with
      | EmptyString => if isspace c then EmptyString else String c EmptyString
      | t => String c t
      end
  end.

(** [str.strip()] with no argument. *)
Definition strip (s : string) : string := rstrip (lstrip s).

(** [s.startswith(p)] *)
Fixpoint startswith (s p : string) : bool :=
  match p, s with
  | EmptyString, _ => true
  | String a p', String b s' => Ascii.eqb a b && startswith s' p'
  | String _ _, EmptyString => false
  end.

(** [sub in s] for strings. *)
Fixpoint contains (s sub : string) : bool :=
  startswith s sub ||
  match s with
  | EmptyString => false
  | String _ s' => contains s' sub
  end.

(** [s.endswith(p)] *)
Fixpoint endswith (s p : string) : bool :=
  String.eqb s p ||
  match s with
  | EmptyString => false
  | String _ s' => endswith s' p
  end.

(** [s.split(sep)] for a one-character separator. *)
Fixpoint split_on (sep : ascii) (s : string) : list string :=
  match s with
  | EmptyString => [EmptyString]
  | String c s' =>
      if Ascii.eqb c sep then EmptyString :: split_on sep s'
      else match split_on sep s' with
           | [] => [String c EmptyString]
           | w :: ws => String c w :: ws
           end
  end.

(** [sep.join(parts)] *)
Fixpoint join (sep : string) (parts : list string) : string :=
  match parts with
  | [] => EmptyString
  | [p] => p
  | p :: ps => p ++ sep ++ join sep ps
  end.

(** [str(pathlib.PurePosixPath(p))]: the root is kept ("//" only for
    exactly two leading slashes), empty and "." components are dropped,
    and the empty path prints as ".". *)
Definition path_root (p : string) : string * string :=
  match p with
  | String "/" (String "/" (String "/" r)) => ("/", String "/" (String "/" r))
  | String "/" (String "/" r) => ("//", r)
  | String "/" r => ("/", r)
  | _ => (EmptyString, p)
  end.

Definition path_str (p : string) : string :=
  let '(root, rel) := path_root p in
  let tail := List.filter (fun x => negb (String.eqb x EmptyString || String.eqb x "."))
                     (split_on "/" rel) in
  match root ++ join "/" tail with
  | EmptyString => "."
  | s => s
  end.

(** Exceptions: a computation that may raise returns [exc]. *)
Inductive exn :=
| ValueError (msg : string)
| TypeError (msg : string).

Inductive exc (A : Type) :=
| Ok (a : A)
| Raise (e : exn).
Arguments Ok {A} a.
Arguments Raise {A} e.

Definition bind {A B} (m : exc A) (k : A -> exc B) : exc B :=
  match m with
  | Ok a => k a
  | Raise e => Raise e
  end.

End Py.

Notation "'do' x <- m ;; k" := (Py.bind m (fun x => k))
  (at level 10, x name, m at level 99, k at level 200).

(** ** The fragment of Python's [re] used by the rule tables *)
Module Re.

(** One member of a bracketed character set. *)
Inductive item :=
| IChar (c : ascii)
| IRange (lo hi : ascii)
| ISpace
| IWord.

Inductive regex :=
| Void
| Eps
| Dot                                   (* [.]: anything but a newline *)
| CSet (negated : bool) (items : list item)
| Cat (r1 r2 : regex)
| Alt (r1 r2 : regex)
| Star (r : regex).

Definition item_has (c : ascii) (i : item) : bool :=
  match i with
  | IChar a => Ascii.eqb a c
  | IRange lo hi => Py.between (Py.code lo) (Py.code hi) c
  | ISpace => Py.isspace c
  | IWord => Py.isword c
  end.

Definition cset_has (negated : bool) (items : list item) (c : ascii) : bool :=
  xorb negated (existsb (item_has c) items).

Definition Chr (c : ascii) : regex := CSet false [IChar c].

Fixpoint repeat_re (n : nat) (r : regex) : regex :=
  match n with
  | O => Eps
  | S n' => Cat r (repeat_re n' r)
  end.

(** *** Parsing pattern text *)

Definition is_digit (c : ascii) : bool := Py.between 48 57 c.
Definition is_alpha (c : ascii) : bool := Py.between 65 90 c || Py.between 97 122 c.

Definition digit_val (c : ascii) : nat := N.to_nat (Py.code c - 48).

(** Characters that may not stand for themselves outside a set. *)
Definition is_meta (c : ascii) : bool :=
  existsb (Ascii.eqb c) (list_ascii_of_string ".^$*+?{}[]\|()").

(** A backslash escape: [\s], [\w], or an escaped punctuation character;
    other escaped letters and digits are not supported. *)
Definition escape_item (c : ascii) : option item :=
  if Ascii.eqb c "s" then Some ISpace
  else if Ascii.eqb c "w" then Some IWord
  else if is_alpha c || is_digit c then None
  else Some (IChar c).

(** The inside of [[...]], after the optional [^]. *)
Fixpoint p_items (s : string) : option (list item * string) :=
  match s with
  | EmptyString => None
  | String "]" rest => Some ([], rest)
  | String "\" (String c rest) =>
      match escape_item c, p_items rest with
      | Some i, Some (its, rest') => Some (i :: its, rest')
      | _, _ => None
      end
  | String "\" EmptyString => None
  | String lo (String "-" (String hi rest) as tl) =>
      if Ascii.eqb hi "]" then
        match p_items tl with
        | Some (its, rest') => Some (IChar lo :: its, rest')
        | None => None
        end
      else if Ascii.eqb hi "\" then None
      else
        match p_items rest with
        | Some (its, rest') => Some (IRange lo hi :: its, rest')
        | None => None
        end
  | String c rest =>
      match p_items rest with
      | Some (its, rest') => Some (IChar c :: its, rest')
      | None => None
      end
  end.

Definition p_class (s : string) : option (regex * string) :=
  match s with
  | String "^" rest =>
      match p_items rest with
      | Some (its, rest') => Some (CSet true its, rest')
      | None => None
      end
  | _ =>
      match p_items s with
      | Some (its, rest') => Some (CSet false its, rest')
      | None => None
      end
  end.

(** A quantifier after an atom: [*], [+], [?] or [{n}] for one digit n. *)
Definition p_quant (a : regex) (s : string) : regex * string :=
  match s with
  | String "*" rest => (Star a, rest)
  | String "+" rest => (Cat a (Star a), rest)
  | String "?" rest => (Alt a Eps, rest)
  | String "{" (String d (String "}" rest)) =>
      if is_digit d then (repeat_re (digit_val d) a, rest) else (a, s)
  | _ => (a, s)
  end.

Fixpoint p_alt (fuel : nat) (s : string) : option (regex * string) :=
  match fuel with
  | O => None
  | S n =>
      match p_seq n s with
      | Some (r, String "|" rest) =>
          match p_alt n rest with
          | Some (r2, rest') => Some (Alt r r2, rest')
          | None => None
          end
      | other => other
      end
  end
with p_seq (fuel : nat) (s : string) : option (regex * string) :=
  match fuel with
  | O => None
  | S n =>
      match s with
      | EmptyString => Some (Eps, s)
      | String "|" _ => Some (Eps, s)
      | String ")" _ => Some (Eps, s)
      | _ =>
          match p_atom n s with
          | Some (a, rest) =>
              let (a', rest') := p_quant a rest in
              match p_seq n rest' with
              | Some (Eps, rest'') => Some (a', rest'')
              | Some (r, rest'') => Some (Cat a' r, rest'')
              | None => None
              end
          | None => None
          end
      end
  end
with p_atom (fuel : nat) (s : string) : option (regex * string) :=
  match fuel with
  | O => None
  | S n =>
      match s with
      | EmptyString => None
      | String "(" rest =>
          match p_alt n rest with
          | Some (r, String ")" rest') => Some (r, rest')
          | _ => None
          end
      | String "[" rest => p_class rest
      | String "." rest => Some (Dot, rest)
      | String "\" (String c rest) =>
          match escape_item c with
          | Some i => Some (CSet false [i], rest)
          | None => None
          end
      | String c rest => if is_meta c then None else Some (Chr c, rest)
      end
  end.

(** [re.compile]: [None] stands for a pattern outside the fragment. *)
Definition compile (pattern : string) : option regex :=
  match p_alt (3 * S (String.length pattern)) pattern with
  | Some (r, EmptyString) => Some r
  | _ => None
  end.

(** *** Matching by derivatives *)

Fixpoint nullable (r : regex) : bool :=
  match r with
  | Void => false
  | Eps => true
  | Dot => false
  | CSet _ _ => false
  | Cat r1 r2 => nullable r1 && nullable r2
  | Alt r1 r2 => nullable r1 || nullable r2
  | Star _ => true
  end.

Definition cat (r1 r2 : regex) : regex :=
  match r1, r2 with
  | Void, _ => Void
  | _, Void => Void
  | Eps, _ => r2
  | _, _ => Cat r1 r2
  end.

Definition alt (r1 r2 : regex) : regex :=
  match r1, r2 with
  | Void, _ => r2
  | _, Void => r1
  | _, _ => Alt r1 r2
  end.

Definition newline : ascii := ascii_of_N 10.

(** The derivative of [r] by the character [c]. *)
Fixpoint deriv (c : ascii) (r : regex) : regex :=
  match r with
  | Void => Void
  | Eps => Void
  | Dot => if Ascii.eqb c newline then Void else Eps
  | CSet neg its => if cset_has neg its c then Eps else Void
  | Cat r1 r2 =>
      if nullable r1 then alt (cat (deriv c r1) r2) (deriv c r2)
      else cat (deriv c r1) r2
  | Alt r1 r2 => alt (deriv c r1) (deriv c r2)
  | Star r1 => cat (deriv c r1) (Star r1)
  end.

Definition is_void (r : regex) : bool :=
  match r with Void => true | _ => false end.

(** Does some prefix of [s] belong to [r]? ([pattern.match]) *)
Fixpoint match_prefix (r : regex) (s : string) : bool :=
  nullable r ||
  match s with
  | EmptyString => false
  | String c s' =>
      let d := deriv c r in
      if is_void d then false else match_prefix d s'
  end.

(** Does a match start at some position of [s]? *)
Fixpoint search_re (r : regex) (s : string) : bool :=
  match_prefix r s ||
  match s with
  | EmptyString => false
  | String _ s' => search_re r s'
  end.

(** [bool(re.search(pattern, s))] *)
Definition search (pattern s : string) : bool :=
  match compile pattern with
  | Some r => search_re r s
  | None => false
  end.

End Re.

(** ** [shlex.split(s)]: POSIX mode, [whitespace_split], no commenters *)
Module Shlex.
Import Py.

(** [shlex.state]: [' '], ['a'], a quote character, or the escape
    character together with the local [escapedstate] to return to. *)
Inductive state :=
| InSpace
| InWord
| InQuote (q : ascii)
| InEscape (escapedstate : state).

Definition whitespace (c : ascii) : bool :=
  existsb (Ascii.eqb c) [" "%char; ascii_of_N 9; ascii_of_N 13; ascii_of_N 10].
Definition quotes (c : ascii) : bool :=
  existsb (Ascii.eqb c) ["'"%char; ascii_of_N 34].
Definition escape (c : ascii) : bool := Ascii.eqb c "\".
Definition escapedquotes (c : ascii) : bool := Ascii.eqb c (ascii_of_N 34).

Definition add (token : string) (c : ascii) : string :=
  token ++ String c EmptyString.

Definition nonempty (s : string) : bool :=
  match s with EmptyString => false | _ => true end.

(** The loop of [read_token], run over the whole input: [out] collects
    the tokens returned so far, [token] and [quoted] are those of the
    call in progress. *)
Fixpoint lex (st : state) (token : string) (quoted : bool)
             (out : list string) (s : string) : exc (list string) :=
  match s with
  | EmptyString =>
      match st with
      | InSpace => Ok out
      | InWord => Ok (if nonempty token || quoted then (out ++ [token])%list else out)
      | InQuote _ => Raise (ValueError "No closing quotation")
      | InEscape _ => Raise (ValueError "No escaped character")
      end
  | String c s' =>
      match st with
      | InSpace =>
          if whitespace c then
            if nonempty token || quoted
            then lex InSpace EmptyString false (out ++ [token])%list s'
            else lex InSpace token quoted out s'
          else if escape c then lex (InEscape InWord) token quoted out s'
          else if quotes c then lex (InQuote c) token quoted out s'
          else lex InWord (String c EmptyString) quoted out s'
      | InQuote q =>
          if Ascii.eqb c q then lex InWord token true out s'
          else if escape c && escapedquotes q
               then lex (InEscape (InQuote q)) token true out s'
          else lex (InQuote q) (add token c) true out s'
      | InEscape back =>
          let token' :=
            match back with
            | InQuote q =>
                if negb (escape c) && negb (Ascii.eqb c q)
                then add token "\" else token
            | _ => token
            end in
          lex back (add token' c) quoted out s'
      | InWord =>
          if whitespace c then
            if nonempty token || quoted
            then lex InSpace EmptyString false (out ++ [token])%list s'
            else lex InSpace token quoted out s'
          else if quotes c then lex (InQuote c) token quoted out s'
          else if escape c then lex (InEscape InWord) token quoted out s'
          else lex InWord (add token c) quoted out s'
      end
  end.

Definition split (s : string) : exc (list string) :=
  lex InSpace EmptyString false [] s.

End Shlex.

(** ** [src/llmshell/safety.py] *)
Module Safety.
Import Py.

Inductive DangerLevel := SAFE | LOW | MEDIUM | HIGH | CRITICAL.

(** [DangerLevel.value] *)
Definition value (l : DangerLevel) : Z :=
  match l with
  | SAFE => 0
  | LOW => 1
  | MEDIUM => 2
  | HIGH => 3
  | CRITICAL => 4
  end.

Definition level_eqb (a b : DangerLevel) : bool := (value a =? value b)%Z.

Record CommandRisk := mkRisk {
  level : DangerLevel;
  reasons : list string;
  suggestions : list string
}.

(** [CommandRisk.__init__]: [suggestions or []]. *)
Definition new_risk (lvl : DangerLevel) (rs : list string)
                    (sugg : option (list string)) : CommandRisk :=
  mkRisk lvl rs (match sugg with Some (x :: l) => x :: l | _ => [] end).

Definition is_dangerous (r : CommandRisk) : bool :=
  (value (level r) >=? value MEDIUM)%Z.

Definition requires_confirmation (r : CommandRisk) : bool :=
  (value (level r) >=? value LOW)%Z.

(** *** [setup_rules]: the rule tables, in source order *)

Definition critical_patterns : list (string * string) :=
  [ ("rm\s+-rf\s+/", "Attempting to delete root filesystem");
    (":\(\)\{\s*:\|\:&\s*\};:", "Fork bomb attempt");
    ("dd\s+if=/dev/(zero|random)\s+of=/dev/[sh]d[a-z]", "Attempting to overwrite disk");
    ("mkfs\.\w+\s+/dev/[sh]d[a-z]", "Attempting to format disk");
    ("rm\s+-rf\s+\*", "Attempting to delete all files recursively");
    ("echo\s+.*>\s*/etc/(passwd|shadow|sudoers)", "Attempting to modify critical system files") ].

Definition high_patterns : list (string * string) :=
  [ ("sudo\s+rm\s+-rf", "Recursive deletion with sudo privileges");
    ("chmod\s+-R\s+777\s+/", "Setting dangerous permissions on root");
    ("chown\s+-R\s+.*:/", "Changing ownership of system directories");
    ("killall\s+-9\s+(init|systemd|kernel)", "Attempting to kill critical system processes");
    ("(reboot|shutdown|halt)\s+(-f|--force)", "Forced system shutdown/reboot");
    ("iptables\s+-F", "Flushing firewall rules");
    ("history\s+-c", "Clearing command history");
    ("shred\s+.*", "Securely deleting files") ].

Definition medium_patterns : list (string * string) :=
  [ ("rm\s+-rf\s+[^/\s]", "Recursive deletion");
    ("mv\s+.*\s+/dev/null", "Moving files to null device");
    (">\s*/etc/", "Redirecting output to system config files");
    ("chmod\s+[0-7]{3}\s+.*\.(sh|py|pl|rb)", "Changing executable permissions");
    ("find\s+.*-exec\s+rm", "Finding and deleting files");
    ("tar\s+.*--overwrite", "Overwriting files during extraction");
    ("wget\s+.*\|\s*(bash|sh)", "Downloading and executing remote scripts");
    ("curl\s+.*\|\s*(bash|sh)", "Downloading and executing remote scripts") ].

Definition low_patterns : list (string * string) :=
  [ ("rm\s+[^-]", "Deleting files");
    ("cp\s+.*\s+.*\.(conf|cfg|ini)", "Copying configuration files");
    ("mv\s+.*\.(conf|cfg|ini)", "Moving configuration files");
    ("nano\s+/etc/", "Editing system configuration");
    ("vi\s+/etc/", "Editing system configuration");
    ("chmod\s+\+x", "Making files executable");
    ("sudo\s+[^rm]", "Running command with sudo privileges") ].

Definition safe_prefixes : gset string :=
  list_to_set
    [ "ls"; "cat"; "less"; "more"; "head"; "tail"; "grep"; "find"; "locate";
      "ps"; "top"; "htop"; "df"; "du"; "free"; "uptime"; "whoami"; "pwd";
      "date"; "cal"; "history"; "man"; "info"; "which"; "whereis"; "type";
      "echo"; "printf"; "wc"; "sort"; "uniq"; "cut"; "awk"; "sed" ].

Definition dangerous_executables : gset string :=
  list_to_set
    [ "fdisk"; "parted"; "gparted"; "mkfs"; "fsck"; "mount"; "umount";
      "iptables"; "ufw"; "firewall-cmd"; "systemctl"; "service" ].

(** [protected_paths] is a Python set that [_analyze_context] iterates;
    the iteration order of a set is unspecified, the source order is used
    here ([protected_at_most_one] shows the order cannot be observed). *)
Definition protected_paths : list string :=
  [ "/"; "/boot"; "/etc"; "/usr"; "/var"; "/sys"; "/proc";
    "/dev/sda"; "/dev/sdb"; "/dev/nvme"; "/dev/hd" ].

(** *** The accumulation idiom of the three passes

    [reasons.append(reason)];
    [if lvl.value > level.value: level = lvl];
    [suggestions.append(suggestion)] *)
Definition note (lvl : DangerLevel) (reason suggestion : string)
                (st : CommandRisk) : CommandRisk :=
  {| level := if (value lvl >? value (level st))%Z then lvl else level st;
     reasons := (reasons st ++ [reason])%list;
     suggestions := (suggestions st ++ [suggestion])%list |}.

Definition start : CommandRisk := mkRisk SAFE [] [].

(** [context]: the keys [cwd] and [files] read with their defaults. *)
Record Context := mkContext {
  cwd : string;
  files : list string
}.

Definition config_suffixes : list string :=
  [".conf"; ".cfg"; ".ini"; ".yaml"; ".json"].

Definition _analyze_context (command : string) (context : Context)
  : CommandRisk :=
  let st := start in
  (* Check if operating in system directories *)
  let st :=
    if Shlex.nonempty (cwd context) then
      let cwd_path := path_str (cwd context) in
      fold_left
        (fun st protected =>
           if startswith cwd_path protected && negb (String.eqb protected "/")
           then note MEDIUM ("Operating in protected directory: " ++ protected)
                     "Be extra careful when modifying system directories" st
           else st)
        protected_paths st
    else st in
  (* Check for operations on important files *)
  let st :=
    if contains (lower command) "rm" || contains (lower command) "mv" then
      let important_files :=
        List.filter (fun f => startswith f "."
                         || existsb (endswith f) config_suffixes)
               (files context) in
      match important_files with
      | [] => st
      | _ :: _ => note LOW "Command may affect configuration files"
                       "Backup important files before modification" st
      end
    else st in
  new_risk (level st) (reasons st) (Some (suggestions st)).

Definition _analyze_structure (command : string) : exc CommandRisk :=
  let st := start in
  (* Check for command chaining *)
  let st :=
    if existsb (contains command) ["&&"; "||"; ";"]
    then note LOW "Command contains multiple operations"
              "Review each operation in the chain" st
    else st in
  (* Check for redirection to important locations *)
  let st :=
    if Re.search ">\s*(/etc|/usr|/var)" command
    then note MEDIUM "Output redirection to system directories"
              "Ensure you have proper permissions and backup files" st
    else st in
  (* Check for wildcards in dangerous contexts *)
  let st :=
    if Re.search "rm\s+.*\*" command || Re.search "chmod\s+.*\*" command
    then note MEDIUM "Wildcard usage in potentially destructive command"
              "Be specific about target files instead of using wildcards" st
    else st in
  (* Check for pipe to shell execution *)
  let st :=
    if Re.search "\|\s*(bash|sh|zsh|fish)" command
    then note HIGH "Piping output to shell execution"
              "Verify the source and content before execution" st
    else st in
  (* Check for dangerous executables *)
  do st <-
    match Shlex.split command with
    | Ok [] => Ok st
    | Ok (part0 :: _) =>
        let executable := List.last (split_on "/" part0) EmptyString in
        if bool_decide (executable ∈ dangerous_executables)
        then Ok (note MEDIUM
                   ("Using potentially dangerous executable: " ++ executable)
                   "Ensure you understand the implications of this command" st)
        else Ok st
    | Raise (ValueError _) =>
        (* Malformed command *)
        Ok (note LOW "Command has malformed syntax"
                 "Check command syntax before execution" st)
    | Raise e => Raise e
    end ;;
  Ok (new_risk (level st) (reasons st) (Some (suggestions st))).

(** One iteration of a non-critical tier loop. *)
Definition tier (lvl : DangerLevel) (suggestion command_lower : string)
                (st : CommandRisk) (entry : string * string) : CommandRisk :=
  let '(pattern, reason) := entry in
  if Re.search pattern command_lower then note lvl reason suggestion st else st.

(** [reasons.extend(r.reasons)]; [suggestions.extend(r.suggestions)];
    [if r.level.value > max_level.value: max_level = r.level] *)
Definition merge (st r : CommandRisk) : CommandRisk :=
  {| level := if (value (level r) >? value (level st))%Z
              then level r else level st;
     reasons := (reasons st ++ reasons r)%list;
     suggestions := (suggestions st ++ suggestions r)%list |}.

(** [list(set(xs))]: the distinct elements, in an unspecified order. *)
Definition list_set (xs : list string) : list string :=
  elements (list_to_set xs : gset string).

Definition analyze_command (command : string) (context : option Context)
  : exc CommandRisk :=
  if negb (Shlex.nonempty (strip command)) then Ok (new_risk SAFE [] None)
  else
    (* Normalize command *)
    let command_lower := strip (lower command) in
    (* Check for critical patterns *)
    match find (fun entry => Re.search (fst entry) command_lower)
               critical_patterns with
    | Some (_, reason) =>
        Ok (new_risk CRITICAL [reason]
              (Some [ "This command can cause irreversible system damage";
                      "Consider alternatives or seek expert help" ]))
    | None =>
        let st := start in
        (* Check for high danger patterns *)
        let st :=
          fold_left
            (tier HIGH "Double-check the target path and consider backing up first"
                  command_lower)
            high_patterns st in
        (* Check for medium danger patterns *)
        let st :=
          fold_left
            (tier MEDIUM "Verify the operation is intended and paths are correct"
                  command_lower)
            medium_patterns st in
        (* Check for low danger patterns *)
        let st :=
          fold_left (tier LOW "Review the operation carefully" command_lower)
                    low_patterns st in
        (* Context-aware analysis *)
        let st :=
          match context with
          | Some ctx => merge st (_analyze_context command ctx)
          | None => st
          end in
        (* Analyze command structure *)
        do structure_risk <- _analyze_structure command ;;
        let st := merge st structure_risk in
        let final :=
          Ok (new_risk (level st) (reasons st)
                       (Some (list_set (suggestions st)))) in
        (* Check if it's a safe command *)
        if level_eqb (level st) SAFE then
          match Shlex.split command with
          | Ok (part0 :: _) =>
              if bool_decide (part0 ∈ safe_prefixes)
              then Ok (new_risk SAFE ["Safe read-only operation"] None)
              else final
          | Ok [] => final
          | Raise (ValueError _) => final
          | Raise e => Raise e
          end
        else final
    end.

(** [get_safety_tips] *)
Definition get_safety_tips (command : string) : list string :=
  let tips := [] in
  let tips :=
    if contains (lower command) "rm" then
      (tips ++ [ "Use 'ls' first to see what files will be affected";
                 "Consider using 'trash' command instead of 'rm' for recoverable deletion";
                 "Always double-check paths before deletion" ])%list
    else tips in
  let tips :=
    if contains (lower command) "sudo" then
      (tips ++ [ "Understand why sudo privileges are needed";
                 "Verify the command is from a trusted source";
                 "Consider if there's a non-privileged alternative" ])%list
    else tips in
  let tips :=
    if existsb (contains command) [">"; ">>"] then
      (tips ++ [ "Backup the target file before overwriting";
                 "Use '>>' for appending instead of '>' for overwriting when appropriate" ])%list
    else tips in
  tips.

(** [DangerLevel.name.title()] *)
Definition level_title (l : DangerLevel) : string :=
  match l with
  | SAFE => "Safe"
  | LOW => "Low"
  | MEDIUM => "Medium"
  | HIGH => "High"
  | CRITICAL => "Critical"
  end.

(** [a >= b] on two members of [DangerLevel].  The class derives from
    [enum.Enum], not from [IntEnum]: members carry no ordering, so the
    rich comparison finds no implementation and Python raises
    [TypeError]. *)
Definition level_ge (a b : DangerLevel) : exc bool :=
  Raise (TypeError "'>=' not supported between instances of 'DangerLevel' and 'DangerLevel'").

End Safety.

(** ** [src/llmshell/core.py]: the confirmation protocol

    The console is modelled by the log of what the session printed,
    asked and ran; text is kept without its glyphs and styles.  The user
    is the sequence of answers typed at the successive prompts, [None]
    being the bare Enter key that selects the prompt's default. *)
Module Core.
Import Py Safety.

Inductive CommandType := NATURAL | DIRECT.

Inductive event :=
| Print (text : string)
| Preview (command : string) (explanation : option string) (risk : CommandRisk)
| Ask (prompt : string) (default : bool)
| Execute (command user_input : string) (kind : CommandType)
| Display (success : bool) (stdout stderr : string).

Record console := mkConsole {
  asked : nat;
  log : list event
}.

(** [LLMResponse] *)
Record LLMResponse := mkResponse {
  command : string;
  explanation : option string;
  error : option string
}.

(** A session step reads and extends the console and may raise. *)
Definition M (A : Type) : Type := console -> exc A * console.

Definition ret {A} (a : A) : M A := fun c => (Ok a, c).

Definition seq {A B} (m : M A) (k : A -> M B) : M B :=
  fun c => match m c with
           | (Ok a, c') => k a c'
           | (Raise e, c') => (Raise e, c')
           end.

Definition lift {A} (m : exc A) : M A := fun c => (m, c).

Definition emit (e : event) : M unit :=
  fun c => (Ok tt, mkConsole (asked c) (log c ++ [e])%list).

(** [self.console.print(text)]: the log records the text handed to the
    console.  Rich renders a string through its markup parser, which
    raises [MarkupError] on a closing tag that matches no open one.  The
    fixed messages of the session are well formed; dynamic text (the
    error of a translation) need not be, and that failure is not
    modelled: the numbered properties state what was asked and what was
    handed to the shell, never the value a handler returns after
    printing dynamic text. *)
Definition print (text : string) : M unit := emit (Print text).

Fixpoint print_each (prefix : string) (lines : list string) : M unit :=
  match lines with
  | [] => ret tt
  | l :: ls => seq (print (prefix ++ l)) (fun _ => print_each prefix ls)
  end.

Section Session.

(** [config.execution] *)
Variable always_confirm : bool.
Variable safe_mode : bool.
(** The answers of the user, by prompt number. *)
Variable user : nat -> option bool.
(** [self.get_context()]: [None] stands for an empty dictionary. *)
Variable get_context : option Context.
(** The shell behind [execute_command]: success, stdout, stderr. *)
Variable shell : string -> bool * string * string.

(** [rich.prompt.Confirm.ask(prompt, default=d)] *)
Definition Confirm_ask (prompt : string) (default : bool) : M bool :=
  fun c =>
    let answer := match user (asked c) with
                  | Some b => b
                  | None => default
                  end in
    (Ok answer, mkConsole (S (asked c)) (log c ++ [Ask prompt default])%list).

Definition analyze_command_safety (command : string) : M CommandRisk :=
  lift (analyze_command command get_context).

Definition execute_command (command user_input : string) (kind : CommandType)
  : M (bool * string * string) :=
  seq (emit (Execute command user_input kind)) (fun _ => ret (shell command)).

(** [display_output]: one event holding what the shell returned.  The
    code prints [stdout] through the markup parser as well, so rendering
    it can raise [MarkupError]; this happens after the command ran and
    after every prompt, and is not modelled either. *)
Definition display_output (r : bool * string * string) : M unit :=
  let '(success, stdout, stderr) := r in emit (Display success stdout stderr).

(** [if not Confirm.ask(prompt, default): print(msg); return True], then
    the rest of the handler. *)
Definition confirm_or_cancel (prompt : string) (default : bool)
                             (msg : string) (rest : M bool) : M bool :=
  seq (Confirm_ask prompt default) (fun ok =>
    if negb ok then seq (print msg) (fun _ => ret true) else rest).

(** The end of [_handle_natural_language], reached when no prompt was
    declined: safety tips, execution, output. *)
Definition finish_natural (user_input : string) (response : LLMResponse)
  : M bool :=
  (* Show safety tips if available *)
  let tips := get_safety_tips (command response) in
  seq (match tips with
       | [] => ret tt
       | _ => seq (print "Safety Tips:") (fun _ =>
              seq (print_each "  - " tips) (fun _ => print EmptyString))
       end) (fun _ =>
  (* Execute command *)
  seq (execute_command (command response) user_input NATURAL) (fun r =>
  (* Display output *)
  seq (display_output r) (fun _ => ret true))).

(** [_handle_natural_language], from the translated [response] on. *)
Definition _handle_natural_language (user_input : string)
                                    (response : LLMResponse) : M bool :=
  match error response with
  | Some (String _ _ as e) =>
      seq (print ("Translation error: " ++ e)) (fun _ => ret true)
  | _ =>
  if negb (Shlex.nonempty (strip (command response))) then
    seq (print "No command generated") (fun _ => ret true)
  else
  (* Analyze command safety *)
  seq (analyze_command_safety (command response)) (fun risk =>
  (* Display command preview with safety information *)
  seq (emit (Preview (command response) (explanation response) risk)) (fun _ =>
  let run := finish_natural user_input response in
  (* Handle confirmation based on risk level *)
  if always_confirm || requires_confirmation risk then
    match level risk with
    | CRITICAL =>
        seq (print "CRITICAL WARNING: This command is extremely dangerous!") (fun _ =>
        seq (print "This command could cause irreversible system damage!") (fun _ =>
        confirm_or_cancel "Type 'I understand the risks' to continue" false
                          "Command cancelled for safety."
          (confirm_or_cancel "Are you absolutely certain you want to proceed?" false
                             "Command cancelled." run)))
    | HIGH =>
        seq (print "HIGH RISK: This command could cause significant damage!") (fun _ =>
        confirm_or_cancel "Are you sure you want to execute this high-risk command?"
                          false "Command cancelled." run)
    | MEDIUM =>
        seq (print "MODERATE RISK: This command requires careful consideration.") (fun _ =>
        confirm_or_cancel "Proceed with this potentially risky command?"
                          true "Command cancelled." run)
    | LOW =>
        confirm_or_cancel "Execute this command?" true "Command cancelled." run
    | SAFE =>
        if always_confirm then
          confirm_or_cancel "Execute this command?" true "Command cancelled." run
        else run
    end
  else run))
  end.

(** The end of [_handle_direct_command]: execution and output. *)
Definition finish_direct (command : string) : M bool :=
  (* Execute command *)
  seq (execute_command command command DIRECT) (fun r =>
  (* Display output *)
  seq (display_output r) (fun _ => ret true)).

(** [_handle_direct_command] *)
Definition _handle_direct_command (command : string) : M bool :=
  (* Analyze command safety *)
  seq (analyze_command_safety command) (fun risk =>
  let run := finish_direct command in
  (* Check for dangerous commands in safe mode *)
  if safe_mode && requires_confirmation risk then
    (* Display risk information for direct commands too *)
    seq (lift (level_ge (level risk) MEDIUM)) (fun dangerous =>
    seq (if dangerous : bool then
           seq (print (level_title (level risk) ++ " Risk Command Detected!")) (fun _ =>
           seq (match reasons risk with
                | [] => ret tt
                | rs => seq (print "Safety Concerns:") (fun _ => print_each "  - " rs)
                end) (fun _ =>
           seq (match suggestions risk with
                | [] => ret tt
                | ss => seq (print "Suggestions:") (fun _ => print_each "  - " ss)
                end) (fun _ => print EmptyString)))
         else ret tt) (fun _ =>
    (* Risk-based confirmation *)
    match level risk with
    | CRITICAL =>
        seq (print "CRITICAL WARNING: This command is extremely dangerous!") (fun _ =>
        confirm_or_cancel "Are you absolutely certain you want to proceed?" false
                          "Command cancelled for safety." run)
    | HIGH =>
        seq (print "HIGH RISK: This command could cause significant damage!") (fun _ =>
        confirm_or_cancel "Are you sure you want to execute this high-risk command?"
                          false "Command cancelled." run)
    | MEDIUM =>
        confirm_or_cancel "Proceed with this potentially risky command?" false
                          "Command cancelled." run
    | _ =>
        confirm_or_cancel "Are you sure you want to execute this command?" true
                          "Command cancelled." run
    end))
  else run).

End Session.

Definition fresh : console := mkConsole 0 [].

(** The prompts shown, with their defaults, in order. *)
Fixpoint prompts (l : list event) : list (string * bool) :=
  match l with
  | [] => []
  | Ask p d :: l' => (p, d) :: prompts l'
  | _ :: l' => prompts l'
  end.

Definition is_execute (e : event) : bool :=
  match e with Execute _ _ _ => true | _ => false end.

(** Was a command handed to the shell? *)
Definition executed (l : list event) : bool := existsb is_execute l.

(** Did the user type an explicit yes at prompt number [n]? *)
Definition accepts (user : nat -> option bool) (n : nat) : bool :=
  match user n with
  | Some true => true
  | _ => false
  end.

(** The printed lines of a log, in order. *)
Fixpoint printed (l : list event) : list string :=
  match l with
  | [] => []
  | Print t :: l' => t :: printed l'
  | _ :: l' => printed l'
  end.

(** What the end of a handler adds to the log. *)
Definition tips_log (command : string) : list event :=
  match get_safety_tips command with
  | [] => []
  | tips => (Print "Safety Tips:"
             :: map (fun tip => Print ("  - " ++ tip)) tips
             ++ [Print EmptyString])%list
  end.

Definition outcome_log (shell : string -> bool * string * string)
                       (command user_input : string) (kind : CommandType)
  : list event :=
  let '(success, stdout, stderr) := shell command in
  [Execute command user_input kind; Display success stdout stderr].

(** The log of the natural-language handler up to its first prompt, for
    a CRITICAL verdict. *)
Definition critical_preamble (response : LLMResponse) (risk : CommandRisk)
  : list event :=
  [ Preview (command response) (explanation response) risk;
    Print "CRITICAL WARNING: This command is extremely dangerous!";
    Print "This command could cause irreversible system damage!";
    Ask "Type 'I understand the risks' to continue" false ].

(** Did the user type an explicit no at prompt number [n]? *)
Definition declines (user : nat -> option bool) (n : nat) : bool :=
  match user n with
  | Some false => true
  | _ => false
  end.

(** The events that precede the first [Execute]. *)
Fixpoint before_execute (l : list event) : list event :=
  match l with
  | [] => []
  | e :: l' => if is_execute e then [] else e :: before_execute l'
  end.

(** A response that passed the two early exits of the handler. *)
Definition translated (response : LLMResponse) : Prop :=
  (error response = None \/ error response = Some EmptyString)
  /\ Shlex.nonempty (strip (command response)) = true.

End Core.

(** ** Findings: the specification's view of the passes

    The specification describes each pass as producing a list of
    findings (level, reason, suggestion) that the aggregator folds.  The
    definitions below follow those words; the theorems relate them to the
    accumulating code of [Safety]. *)
Module Findings.
Import Py Safety.

Record Finding := mkFinding {
  f_level : DangerLevel;
  f_reason : string;
  f_suggestions : list string
}.

(** One finding per matching pattern of a tier. *)
Definition tier_findings (lvl : DangerLevel) (sugg : list string)
                         (patterns : list (string * string))
                         (text : string) : list Finding :=
  map (fun entry => mkFinding lvl (snd entry) sugg)
      (List.filter (fun entry => Re.search (fst entry) text) patterns).

Definition critical_findings (command : string) : list Finding :=
  tier_findings CRITICAL
    [ "This command can cause irreversible system damage";
      "Consider alternatives or seek expert help" ]
    critical_patterns (strip (lower command)).

Definition high_findings (command : string) : list Finding :=
  tier_findings HIGH
    ["Double-check the target path and consider backing up first"]
    high_patterns (strip (lower command)).

Definition medium_findings (command : string) : list Finding :=
  tier_findings MEDIUM
    ["Verify the operation is intended and paths are correct"]
    medium_patterns (strip (lower command)).

Definition low_findings (command : string) : list Finding :=
  tier_findings LOW ["Review the operation carefully"]
    low_patterns (strip (lower command)).

Definition when (b : bool) (f : Finding) : list Finding :=
  if b then [f] else [].

(** The structural pass: chaining, redirection, wildcards, pipe to an
    interpreter, then flagged executable or malformed syntax. *)
Definition structure_findings (command : string) : list Finding :=
  (when (existsb (contains command) ["&&"; "||"; ";"])
        (mkFinding LOW "Command contains multiple operations"
                   ["Review each operation in the chain"])
   ++ when (Re.search ">\s*(/etc|/usr|/var)" command)
        (mkFinding MEDIUM "Output redirection to system directories"
                   ["Ensure you have proper permissions and backup files"])
   ++ when (Re.search "rm\s+.*\*" command || Re.search "chmod\s+.*\*" command)
        (mkFinding MEDIUM "Wildcard usage in potentially destructive command"
                   ["Be specific about target files instead of using wildcards"])
   ++ when (Re.search "\|\s*(bash|sh|zsh|fish)" command)
        (mkFinding HIGH "Piping output to shell execution"
                   ["Verify the source and content before execution"])
   ++ match Shlex.split command with
      | Ok (part0 :: _) =>
          let executable := List.last (split_on "/" part0) EmptyString in
          when (bool_decide (executable ∈ dangerous_executables))
               (mkFinding MEDIUM
                  ("Using potentially dangerous executable: " ++ executable)
                  ["Ensure you understand the implications of this command"])
      | Ok [] => []
      | Raise _ =>
          [mkFinding LOW "Command has malformed syntax"
                     ["Check command syntax before execution"]]
      end)%list.

(** The context pass; an absent context contributes nothing. *)
Definition context_findings (command : string) (context : option Context)
  : list Finding :=
  match context with
  | None => []
  | Some ctx =>
      ((if Shlex.nonempty (cwd ctx) then
          map (fun protected =>
                 mkFinding MEDIUM
                   ("Operating in protected directory: " ++ protected)
                   ["Be extra careful when modifying system directories"])
              (List.filter (fun protected =>
                         startswith (path_str (cwd ctx)) protected
                         && negb (String.eqb protected "/"))
                      protected_paths)
        else [])
       ++ when ((contains (lower command) "rm" || contains (lower command) "mv")
                && existsb (fun f => startswith f "."
                                     || existsb (endswith f) config_suffixes)
                           (files ctx))
               (mkFinding LOW "Command may affect configuration files"
                          ["Backup important files before modification"]))%list
  end.

(** The findings of the tiers below CRITICAL and of the two passes, in
    the order the aggregator visits them. *)
Definition later_findings (command : string) (context : option Context)
  : list Finding :=
  (high_findings command ++ medium_findings command ++ low_findings command
   ++ context_findings command context ++ structure_findings command)%list.

(** Every finding that evaluating each tier and pass on its own yields. *)
Definition all_findings (command : string) (context : option Context)
  : list Finding :=
  (critical_findings command ++ later_findings command context)%list.

Definition level_max (a b : DangerLevel) : DangerLevel :=
  if (value a <? value b)%Z then b else a.

(** The maximum level of a collection of findings, [SAFE] when empty. *)
Definition max_level (fs : list Finding) : DangerLevel :=
  fold_right (fun f m => level_max (f_level f) m) SAFE fs.

(** Is the first [shlex] token of the command in the safe-prefix set? *)
Definition leading_token_safe (command : string) : bool :=
  match Shlex.split command with
  | Ok (part0 :: _) => bool_decide (part0 ∈ safe_prefixes)
  | _ => false
  end.

Definition blank (command : string) : bool :=
  negb (Shlex.nonempty (strip command)).

Definition first_critical (command : string) : option (string * string) :=
  find (fun entry => Re.search (fst entry) (strip (lower command)))
       critical_patterns.

Definition reasons_of (fs : list Finding) : list string := map f_reason fs.
Definition suggestions_of (fs : list Finding) : list string :=
  concat (map f_suggestions fs).

(** A running verdict [st] after the findings [fs] have been folded in. *)
Definition summary (st : CommandRisk) (fs : list Finding) : CommandRisk :=
  mkRisk (level_max (level st) (max_level fs))
         (reasons st ++ reasons_of fs)
         (suggestions st ++ suggestions_of fs).

(** The aggregation rule of the specification, steps 1 to 7. *)
Definition verdict (command : string) (context : option Context)
  : CommandRisk :=
  if blank command then mkRisk SAFE [] []
  else
    match first_critical command with
    | Some (_, reason) =>
        mkRisk CRITICAL [reason]
               [ "This command can cause irreversible system damage";
                 "Consider alternatives or seek expert help" ]
    | None =>
        let fs := later_findings command context in
        if level_eqb (max_level fs) SAFE && leading_token_safe command
        then mkRisk SAFE ["Safe read-only operation"] []
        else mkRisk (max_level fs) (reasons_of fs)
                    (list_set (suggestions_of fs))
    end.

(** A string made of [str.isspace] characters only. *)
Fixpoint all_space (s : string) : bool :=
  match s with
  | EmptyString => true
  | String c s' => isspace c && all_space s'
  end.

Definition spaces (t : string) : Prop := all_space t = true.

(** A finding that raises the level above [SAFE]. *)
Definition risky (f : Finding) : Prop := f_level f <> SAFE.

(** The outcomes of [shlex.split]: tokens, or [ValueError]. *)
Definition tokenizes (r : exc (list string)) : Prop :=
  (exists parts, r = Ok parts) \/ (exists msg, r = Raise (ValueError msg)).

End Findings.

(** ** [src/llmshell/core.py]: input routing and history *)
Module Session.
Import Py Safety Core.

(** [s.split()] with no argument: the maximal runs of characters that
    are not white space. *)
Fixpoint split_from (word : string) (s : string) : list string :=
  match s with
  | EmptyString => if Shlex.nonempty word then [word] else []
  | String c s' =>
      if isspace c then
        if Shlex.nonempty word then word :: split_from EmptyString s'
        else split_from EmptyString s'
      else split_from (word ++ String c EmptyString) s'
  end.

Definition split_ws (s : string) : list string := split_from EmptyString s.

(** What reaches the session loop when a handler does not return. *)
Inductive raised :=
| Exn (e : exn)
| IndexError (msg : string).

Inductive outcome (A : Type) :=
| Done (a : A)
| Failed (r : raised).
Arguments Done {A} a.
Arguments Failed {A} r.

Definition natural_language_indicators : list string :=
  [ "please"; "can you"; "how to"; "show me"; "find all"; "list all";
    "what is"; "where is"; "count"; "display"; "get"; "make" ].

Definition shell_commands : list string :=
  [ "ls"; "cd"; "pwd"; "grep"; "find"; "ps"; "df"; "free"; "chmod"; "chown";
    "mv"; "cp"; "rm"; "mkdir"; "rmdir" ].

(** [x in xs] for a list of strings. *)
Definition mem (x : string) (xs : list string) : bool :=
  existsb (String.eqb x) xs.

(** [detect_command_type]; [user_input.strip().split()[0]] raises
    [IndexError] when the input has no word. *)
Definition detect_command_type (ai_mode : bool) (user_input : string)
  : outcome string :=
  (* If it starts with common shell commands, treat as direct command *)
  match split_ws (strip user_input) with
  | [] => Failed (IndexError "list index out of range")
  | word0 :: _ =>
      if mem word0 shell_commands then Done "direct"
      (* If it contains natural language indicators *)
      else if existsb (contains (lower user_input)) natural_language_indicators
      then Done "natural"
      (* If it's very short and doesn't contain spaces, likely a command *)
      else if (length (split_ws user_input) <=? 2)%nat
              && negb (existsb (contains user_input) ["?"; "."; ","; ";"])
      then Done "direct"
      (* Default to natural language if in AI mode *)
      else Done (if ai_mode then "natural" else "direct")
  end.

Section Routing.

Variable always_confirm : bool.
Variable safe_mode : bool.
Variable user : nat -> option bool.
Variable get_context : option Context.
Variable shell : string -> bool * string * string.
(** [self.ai_mode] *)
Variable ai_mode : bool.
(** The language model behind [translate_command]. *)
Variable translate : string -> LLMResponse.
(** The branch of the dot commands: [_handle_special_command] and its
    asynchronous follow-ups. *)
Variable special : string -> M bool.

Definition handled (r : exc bool * console) : outcome bool * console :=
  match r with
  | (Ok b, c) => (Done b, c)
  | (Raise e, c) => (Failed (Exn e), c)
  end.

(** [process_user_input] *)
Definition process_user_input (user_input : string)
  : console -> outcome bool * console :=
  fun c =>
    let user_input := strip user_input in
    if negb (Shlex.nonempty user_input) then (Done true, c)
    (* Handle special commands *)
    else if startswith user_input "." then handled (special user_input c)
    else
      (* Determine command type *)
      match detect_command_type ai_mode user_input with
      | Failed r => (Failed r, c)
      | Done command_type =>
          if String.eqb command_type "natural" && ai_mode then
            handled (_handle_natural_language always_confirm user get_context
                       shell user_input (translate user_input) c)
          else
            handled (_handle_direct_command safe_mode user get_context shell
                       user_input c)
      end.

End Routing.

(** [_record_command_history], on the in-memory history.  [failure] is
    the message of the exception raised while the entry is built and
    stored in the persistent history, if any: the in-memory history is
    then left alone and a warning is printed. *)
Definition _record_command_history
    (failure : option string)
    (history : list (string * string * bool))
    (user_input command : string) (success : bool)
  : list (string * string * bool) * list event :=
  match failure with
  | Some e => (history, [Print ("Warning: Failed to record history: " ++ e)])
  | None =>
      (* Add to in-memory history for backward compatibility *)
      let history := (history ++ [(user_input, command, success)])%list in
      (* Keep only last 50 entries in memory *)
      if (50 <? length history)%nat
      then (skipn (length history - 50) history, [])
      else (history, [])
  end.

(** *** The confirmation protocol of the natural-language flow *)

(** The prompts the handler holds ready for a level, with defaults. *)
Definition natural_prompts (always_confirm : bool) (lvl : DangerLevel)
  : list (string * bool) :=
  match lvl with
  | CRITICAL => [ ("Type 'I understand the risks' to continue", false);
                  ("Are you absolutely certain you want to proceed?", false) ]
  | HIGH => [("Are you sure you want to execute this high-risk command?", false)]
  | MEDIUM => [("Proceed with this potentially risky command?", true)]
  | LOW => [("Execute this command?", true)]
  | SAFE => if always_confirm then [("Execute this command?", true)] else []
  end.

(** The answer [Confirm.ask] returns at prompt number [n]. *)
Definition answer (user : nat -> option bool) (n : nat) (default : bool)
  : bool :=
  match user n with
  | Some b => b
  | None => default
  end.

(** The prompts shown when they are asked in turn from number [n] on,
    stopping at the first negative answer. *)
Fixpoint shown (user : nat -> option bool) (n : nat)
               (ps : list (string * bool)) : list (string * bool) :=
  match ps with
  | [] => []
  | (p, d) :: ps' =>
      (p, d) :: if answer user n d then shown user (S n) ps' else []
  end.

(** Were all of them answered positively? *)
Fixpoint agreed (user : nat -> option bool) (n : nat)
                (ps : list (string * bool)) : bool :=
  match ps with
  | [] => true
  | (_, d) :: ps' => answer user n d && agreed user (S n) ps'
  end.

(** *** Characters a pattern cannot do without *)

(** The string does not contain the character. *)
Fixpoint lacks (c : ascii) (s : string) : bool :=
  match s with
  | EmptyString => true
  | String a s' => negb (Ascii.eqb a c) && lacks c s'
  end.

Definition only_char (c : ascii) (i : Re.item) : bool :=
  match i with
  | Re.IChar a => Ascii.eqb a c
  | _ => false
  end.

(** A syntactic criterion: every string of the regular expression
    contains [c]. *)
Fixpoint needs (c : ascii) (r : Re.regex) : bool :=
  match r with
  | Re.Void => true
  | Re.Eps => false
  | Re.Dot => false
  | Re.CSet negated items => negb negated && forallb (only_char c) items
  | Re.Cat r1 r2 => needs c r1 || needs c r2
  | Re.Alt r1 r2 => needs c r1 && needs c r2
  | Re.Star _ => false
  end.

(** The pattern compiles, and to an expression that needs [c]. *)
Definition pattern_needs (c : ascii) (pattern : string) : bool :=
  match Re.compile pattern with
  | Some r => needs c r
  | None => false
  end.

(** *** [src/llmshell/context.py]: the context handed to the analyzer *)

(** [_get_basic_context], the keys the analyzer reads.  [directory] is
    [str(directory)]; [listing] holds the names [directory.iterdir()]
    yields, or [None] when listing the directory raises (the files are
    then left empty). *)
Definition _get_basic_context (directory : string)
                              (listing : option (list string)) : Context :=
  mkContext directory
    match listing with
    | Some names =>
        firstn 10 (List.filter (fun name => negb (startswith name ".")) names)
    | None => []
    end.

(** *** [src/llmshell/llm.py]: cleaning the model's answer *)

Definition newline : string := String (ascii_of_N 10) EmptyString.



End Session.

(** * Properties *)

Import Py Safety Findings.

(** ** Levels *)

Lemma level_max_assoc a b c :
  level_max a (level_max b c) = level_max (level_max a b) c.
Proof. destruct a, b, c; reflexivity. Qed.

Lemma level_max_safe_r a : level_max a SAFE = a.
Proof. destruct a; reflexivity. Qed.

Lemma level_max_safe_l a : level_max SAFE a = a.
Proof. destruct a; reflexivity. Qed.

Lemma level_max_ge_l a b : (value a <= value (level_max a b))%Z.
Proof. destruct a, b; vm_compute; discriminate. Qed.

Lemma level_max_ge_r a b : (value b <= value (level_max a b))%Z.
Proof. destruct a, b; vm_compute; discriminate. Qed.

Lemma level_max_critical_l a : level_max CRITICAL a = CRITICAL.
Proof. destruct a; reflexivity. Qed.

Lemma level_max_critical_r a : level_max a CRITICAL = CRITICAL.
Proof. destruct a; reflexivity. Qed.

Lemma level_eqb_eq a b : level_eqb a b = true <-> a = b.
Proof. destruct a, b; vm_compute; split; congruence. Qed.

Lemma max_level_app fs gs :
  max_level (fs ++ gs) = level_max (max_level fs) (max_level gs).
Proof.
  induction fs as [|f fs IH]; simpl.
  - now rewrite level_max_safe_l.
  - now rewrite IH, level_max_assoc.
Qed.

Lemma max_level_ge f fs :
  In f fs -> (value (f_level f) <= value (max_level fs))%Z.
Proof.
  induction fs as [|g fs IH]; simpl; [tauto|].
  intros [->|Hin].
  - apply level_max_ge_l.
  - etransitivity; [apply IH, Hin | apply level_max_ge_r].
Qed.

(** A non-empty collection of findings at LOW or above is not SAFE. *)
Lemma max_level_safe_nil fs :
  Forall (fun f => f_level f <> SAFE) fs -> max_level fs = SAFE -> fs = [].
Proof.
  destruct fs as [|f fs]; [reflexivity|].
  intros Hall Hmax. exfalso. inversion Hall as [|? ? Hf _]; subst.
  simpl in Hmax. destruct (f_level f), (max_level fs); try discriminate.
  now apply Hf.
Qed.

(** ** The accumulating code computes the summary of the findings *)

Lemma summary_nil st : summary st [] = st.
Proof.
  destruct st as [l r s]. unfold summary, reasons_of, suggestions_of; simpl.
  now rewrite level_max_safe_r, !app_nil_r.
Qed.

Lemma summary_app st fs gs : summary (summary st fs) gs = summary st (fs ++ gs).
Proof.
  unfold summary, reasons_of, suggestions_of; simpl.
  rewrite max_level_app, level_max_assoc, !map_app, concat_app, !app_assoc.
  reflexivity.
Qed.

Lemma note_summary lvl r s st :
  note lvl r s st = summary st [mkFinding lvl r [s]].
Proof.
  unfold note, summary, reasons_of, suggestions_of; simpl. f_equal.
  destruct lvl, (level st); reflexivity.
Qed.

Lemma summary_when st (b : bool) f :
  (if b then summary st [f] else st) = summary st (when b f).
Proof. destruct b; simpl; [reflexivity | now rewrite summary_nil]. Qed.

Lemma new_risk_some l r s : new_risk l r (Some s) = mkRisk l r s.
Proof. now destruct s. Qed.

Lemma new_risk_eta st :
  new_risk (level st) (reasons st) (Some (suggestions st)) = st.
Proof. rewrite new_risk_some. now destruct st. Qed.

Lemma merge_summary st fs : merge st (summary start fs) = summary st fs.
Proof.
  unfold merge, summary; simpl. f_equal.
  rewrite level_max_safe_l. destruct (level st), (max_level fs); reflexivity.
Qed.

Lemma fold_tier lvl s cl pats st :
  fold_left (tier lvl s cl) pats st = summary st (tier_findings lvl [s] pats cl).
Proof.
  revert st. induction pats as [|[p r] pats IH]; intros st.
  - now rewrite summary_nil.
  - cbn [fold_left]. rewrite IH. unfold tier_findings.
    cbn [List.filter tier fst snd].
    destruct (Re.search p cl); cbn [map fst snd].
    + rewrite note_summary, summary_app. reflexivity.
    + reflexivity.
Qed.

(** ** [shlex.split] either returns tokens or raises [ValueError] *)

Lemma lex_tokenizes s : forall st token quoted out,
  tokenizes (Shlex.lex st token quoted out s).
Proof.
  induction s as [|c s IH]; intros st token quoted out.
  - destruct st; cbn [Shlex.lex]; unfold tokenizes; eauto.
  - destruct st as [| |q|back]; cbn [Shlex.lex].
    + destruct (Shlex.whitespace c);
        [destruct (Shlex.nonempty token || quoted); apply IH|].
      destruct (Shlex.escape c); [apply IH|].
      destruct (Shlex.quotes c); apply IH.
    + destruct (Shlex.whitespace c);
        [destruct (Shlex.nonempty token || quoted); apply IH|].
      destruct (Shlex.quotes c); [apply IH|].
      destruct (Shlex.escape c); apply IH.
    + destruct (Ascii.eqb c q); [apply IH|].
      destruct (Shlex.escape c && Shlex.escapedquotes q); apply IH.
    + apply IH.
Qed.

Lemma split_tokenizes s : tokenizes (Shlex.split s).
Proof. apply lex_tokenizes. Qed.

(** ** The two passes, as summaries of their findings *)

Lemma fold_protected cwd_path paths st :
  fold_left
    (fun st protected =>
       if startswith cwd_path protected && negb (String.eqb protected "/")
       then note MEDIUM ("Operating in protected directory: " ++ protected)
                 "Be extra careful when modifying system directories" st
       else st) paths st
  = summary st
      (map (fun protected =>
              mkFinding MEDIUM ("Operating in protected directory: " ++ protected)
                        ["Be extra careful when modifying system directories"])
           (List.filter (fun protected => startswith cwd_path protected
                                          && negb (String.eqb protected "/"))
                        paths)).
Proof.
  revert st. induction paths as [|p paths IH]; intros st.
  - now rewrite summary_nil.
  - cbn [fold_left List.filter]. rewrite IH.
    destruct (startswith cwd_path p && negb (String.eqb p "/")); cbn [map].
    + rewrite note_summary, summary_app. reflexivity.
    + reflexivity.
Qed.

Lemma filter_nil_existsb {A} (f : A -> bool) l :
  match List.filter f l with [] => false | _ :: _ => true end = existsb f l.
Proof.
  induction l as [|a l IH]; simpl; [reflexivity|].
  destruct (f a); simpl; [reflexivity | exact IH].
Qed.

Lemma context_summary command ctx :
  _analyze_context command ctx
  = summary start (context_findings command (Some ctx)).
Proof.
  unfold _analyze_context, context_findings. rewrite new_risk_eta.
  rewrite <- summary_app.
  set (important := List.filter _ (files ctx)).
  set (st1 := if Shlex.nonempty (cwd ctx) then _ else start).
  assert (H1 : st1 = summary start
      (if Shlex.nonempty (cwd ctx)
       then map (fun protected =>
              mkFinding MEDIUM ("Operating in protected directory: " ++ protected)
                        ["Be extra careful when modifying system directories"])
              (List.filter (fun protected =>
                              startswith (path_str (cwd ctx)) protected
                              && negb (String.eqb protected "/"))
                           protected_paths)
       else [])).
  { subst st1. destruct (Shlex.nonempty (cwd ctx)).
    - apply fold_protected.
    - now rewrite summary_nil. }
  rewrite <- H1. clearbody st1.
  rewrite <- (filter_nil_existsb _ (files ctx)). fold important.
  destruct (contains (lower command) "rm" || contains (lower command) "mv");
    cbn [andb when].
  - destruct important; [now rewrite summary_nil | apply note_summary].
  - now rewrite summary_nil.
Qed.

Lemma structure_summary command :
  _analyze_structure command = Ok (summary start (structure_findings command)).
Proof.
  unfold _analyze_structure, structure_findings.
  rewrite !note_summary, !summary_when, !summary_app, !app_assoc.
  set (fs := (((when _ _ ++ when _ _) ++ when _ _) ++ when _ _)%list).
  destruct (split_tokenizes command) as [[parts ->]|[msg ->]].
  - destruct parts as [|part0 parts]; cbn [bind].
    + now rewrite new_risk_eta, app_nil_r.
    + destruct (bool_decide _); cbn [bind when]; rewrite new_risk_eta.
      * rewrite ?note_summary, ?summary_app. reflexivity.
      * now rewrite app_nil_r.
  - cbn [bind]. rewrite new_risk_eta, ?note_summary, ?summary_app. reflexivity.
Qed.

(** ** [analyze_command] computes the specified verdict *)

Lemma analyze_command_verdict command context :
  analyze_command command context = Ok (verdict command context).
Proof.
  unfold analyze_command, verdict. fold (blank command).
  destruct (blank command); [reflexivity|].
  fold (first_critical command).
  destruct (first_critical command) as [[pattern reason]|]; [reflexivity|].
  rewrite !fold_tier, structure_summary. cbn [bind].
  fold (high_findings command) (medium_findings command) (low_findings command).
  rewrite !summary_app.
  assert (Hctx : match context with
                 | Some ctx =>
                     merge (summary start (high_findings command
                                           ++ medium_findings command
                                           ++ low_findings command)%list)
                           (_analyze_context command ctx)
                 | None => summary start (high_findings command
                                          ++ medium_findings command
                                          ++ low_findings command)%list
                 end
                 = summary start ((high_findings command
                                   ++ medium_findings command
                                   ++ low_findings command)
                                  ++ context_findings command context)%list).
  { destruct context as [ctx|].
    - rewrite context_summary, merge_summary, summary_app. reflexivity.
    - cbn [context_findings]. now rewrite app_nil_r. }
  rewrite Hctx, merge_summary, summary_app, <- !app_assoc.
  fold (later_findings command context).
  set (fs := later_findings command context).
  unfold summary. cbn [level reasons suggestions start].
  rewrite level_max_safe_l, !app_nil_l, !new_risk_some.
  unfold leading_token_safe.
  destruct (level_eqb (max_level fs) SAFE); cbn [andb]; [|reflexivity].
  destruct (split_tokenizes command) as [[parts ->]|[msg ->]];
    [|reflexivity].
  destruct parts as [|part0 parts]; [reflexivity|].
  destruct (bool_decide _); reflexivity.
Qed.

(** ** Blank commands *)

Lemma isspace_lower_char c : isspace (lower_char c) = isspace c.
Proof.
  destruct c as [b0 b1 b2 b3 b4 b5 b6 b7].
  destruct b0, b1, b2, b3, b4, b5, b6, b7; reflexivity.
Qed.

Lemma lstrip_lower s : lstrip (lower s) = lower (lstrip s).
Proof.
  induction s as [|c s IH]; [reflexivity|].
  cbn [lower lstrip]. rewrite isspace_lower_char.
  destruct (isspace c); [exact IH | reflexivity].
Qed.

Lemma rstrip_lower s : rstrip (lower s) = lower (rstrip s).
Proof.
  induction s as [|c s IH]; [reflexivity|].
  cbn [lower rstrip]. rewrite IH, isspace_lower_char.
  destruct (rstrip s); cbn [lower]; [destruct (isspace c)|]; reflexivity.
Qed.

(** [str.lower] and [str.strip] commute. *)
Lemma strip_lower s : strip (lower s) = lower (strip s).
Proof. unfold strip. now rewrite lstrip_lower, rstrip_lower. Qed.

Lemma rstrip_empty s : rstrip s = EmptyString -> all_space s = true.
Proof.
  induction s as [|c s IH]; [reflexivity|].
  cbn [rstrip all_space]. destruct (rstrip s); [|discriminate].
  destruct (isspace c); [intros _; now apply IH | discriminate].
Qed.

Lemma lstrip_space s : all_space (lstrip s) = true -> all_space s = true.
Proof.
  induction s as [|c s IH]; [reflexivity|].
  cbn [lstrip all_space]. destruct (isspace c) eqn:E; [exact IH|].
  cbn [all_space]. now rewrite E.
Qed.

Lemma blank_all_space command : blank command = true -> all_space command = true.
Proof.
  unfold blank, strip. intros H. apply lstrip_space, rstrip_empty.
  destruct (rstrip (lstrip command)); [reflexivity | discriminate].
Qed.

Lemma blank_lower command :
  blank command = true -> strip (lower command) = EmptyString.
Proof.
  unfold blank. rewrite strip_lower.
  destruct (strip command); [reflexivity | discriminate].
Qed.

(** No CRITICAL pattern matches the empty string. *)
Lemma blank_not_critical command :
  blank command = true -> first_critical command = None.
Proof.
  intros H. unfold first_critical. rewrite (blank_lower _ H).
  vm_compute. reflexivity.
Qed.

(** ** Findings of the CRITICAL tier *)

Lemma first_critical_none command :
  first_critical command = None -> critical_findings command = [].
Proof.
  unfold first_critical, critical_findings, tier_findings.
  generalize (strip (lower command)) as text. intros text.
  induction critical_patterns as [|e l IH]; [reflexivity|].
  cbn [find List.filter]. destruct (Re.search (fst e) text); [discriminate|].
  exact IH.
Qed.

Lemma first_critical_some command pattern reason :
  first_critical command = Some (pattern, reason) ->
  max_level (critical_findings command) = CRITICAL.
Proof.
  unfold first_critical, critical_findings, tier_findings.
  generalize (strip (lower command)) as text. intros text.
  induction critical_patterns as [|e l IH]; [discriminate|].
  cbn [find List.filter]. destruct (Re.search (fst e) text).
  - intros _. cbn [map max_level fold_right f_level].
    apply level_max_critical_l.
  - exact IH.
Qed.

Lemma first_critical_in command pattern reason :
  first_critical command = Some (pattern, reason) ->
  In (pattern, reason) critical_patterns
  /\ Re.search pattern (strip (lower command)) = true.
Proof.
  unfold first_critical. intros H. apply find_some in H. exact H.
Qed.

Lemma critical_match_first command :
  (exists pattern reason,
      In (pattern, reason) critical_patterns
      /\ Re.search pattern (strip (lower command)) = true) ->
  exists pattern reason, first_critical command = Some (pattern, reason).
Proof.
  intros (p & r & Hin & Hm). unfold first_critical.
  destruct (find _ critical_patterns) as [[p1 r1]|] eqn:E; [eauto|].
  exfalso. pose proof (find_none _ _ E _ Hin) as Hn.
  cbn [fst] in Hn. congruence.
Qed.

(** ** Findings below CRITICAL are never SAFE *)

Lemma tier_findings_level lvl sugg pats text :
  Forall (fun f => f_level f = lvl) (tier_findings lvl sugg pats text).
Proof.
  unfold tier_findings. apply List.Forall_forall. intros f Hf.
  apply in_map_iff in Hf as (e & <- & _). reflexivity.
Qed.

Lemma Forall_when (P : Finding -> Prop) b f : P f -> Forall P (when b f).
Proof. destruct b; simpl; auto. Qed.

Lemma structure_findings_risky command :
  Forall risky (structure_findings command).
Proof.
  unfold structure_findings.
  repeat (apply Forall_app; split);
    try (apply Forall_when; unfold risky; cbn; discriminate).
  destruct (Shlex.split command) as [[|part0 parts]|e]; auto.
  - apply Forall_when; unfold risky; cbn; discriminate.
  - constructor; [unfold risky; cbn; discriminate | constructor].
Qed.

Lemma context_findings_risky command context :
  Forall risky (context_findings command context).
Proof.
  destruct context as [ctx|]; cbn [context_findings]; [|constructor].
  apply Forall_app; split.
  - destruct (Shlex.nonempty (cwd ctx)); [|constructor].
    apply List.Forall_forall. intros f Hf.
    apply in_map_iff in Hf as (e & <- & _). unfold risky; cbn; discriminate.
  - apply Forall_when; unfold risky; cbn; discriminate.
Qed.

Lemma later_findings_risky command context :
  Forall risky (later_findings command context).
Proof.
  assert (Ht : forall lvl sugg pats text,
             lvl <> SAFE -> Forall risky (tier_findings lvl sugg pats text)).
  { intros lvl sugg pats text Hl.
    eapply List.Forall_impl; [|apply tier_findings_level].
    unfold risky. intros f ->. exact Hl. }
  unfold later_findings.
  apply Forall_app; split; [apply Ht; discriminate|].
  apply Forall_app; split; [apply Ht; discriminate|].
  apply Forall_app; split; [apply Ht; discriminate|].
  apply Forall_app; split.
  - apply context_findings_risky.
  - apply structure_findings_risky.
Qed.

(** ** The CRITICAL short circuit *)

(** C1. When some pattern of the CRITICAL tier matches the normalised
    (lower-cased, stripped) command, [analyze_command] returns level
    CRITICAL with exactly one reason, the reason of the first matching
    CRITICAL pattern, and the two fixed suggestions; the context and every
    other tier and pass leave the verdict unchanged. *)
Theorem critical_short_circuit command context :
  (exists pattern reason,
      In (pattern, reason) critical_patterns
      /\ Re.search pattern (strip (lower command)) = true) ->
  exists pattern reason,
    first_critical command = Some (pattern, reason)
    /\ In (pattern, reason) critical_patterns
    /\ Re.search pattern (strip (lower command)) = true
    /\ analyze_command command context
       = Ok (mkRisk CRITICAL [reason]
               [ "This command can cause irreversible system damage";
                 "Consider alternatives or seek expert help" ]).
Proof.
  intros Hm. destruct (critical_match_first _ Hm) as (p & r & Hfirst).
  exists p, r. destruct (first_critical_in _ _ _ Hfirst) as [Hin Hs].
  repeat split; try assumption.
  rewrite analyze_command_verdict. unfold verdict.
  destruct (blank command) eqn:Hb.
  - rewrite (blank_not_critical _ Hb) in Hfirst. discriminate.
  - now rewrite Hfirst.
Qed.

Lemma critical_short_circuit_witness :
  exists pattern reason,
    first_critical "rm -rf / ; rm -rf *" = Some (pattern, reason)
    /\ In (pattern, reason) critical_patterns
    /\ Re.search pattern (strip (lower "rm -rf / ; rm -rf *")) = true
    /\ analyze_command "rm -rf / ; rm -rf *" None
       = Ok (mkRisk CRITICAL [reason]
               [ "This command can cause irreversible system damage";
                 "Consider alternatives or seek expert help" ]).
Proof.
  apply (critical_short_circuit "rm -rf / ; rm -rf *" None).
  exists "rm\s+-rf\s+\*", "Attempting to delete all files recursively".
  split; [simpl; tauto | vm_compute; reflexivity].
Defined.

(** ** Maximum aggregation *)

(** C2 as stated fails: the blank command is answered SAFE before any
    pass runs, while the context pass on its own reports a MEDIUM finding
    for a protected working directory. *)
Lemma max_aggregation_counterexample :
  analyze_command EmptyString (Some (mkContext "/etc" []))
  = Ok (mkRisk SAFE [] [])
  /\ max_level (all_findings EmptyString (Some (mkContext "/etc" []))) = MEDIUM.
Proof. split; vm_compute; reflexivity. Qed.

(** C2, amended. For every command that is not blank and every optional
    context, the level of the verdict is the maximum of the levels of all
    findings of the four pattern tiers, the context pass and the
    structural pass ([SAFE] when there is none). *)
Theorem max_aggregation command context :
  blank command = false ->
  exists r,
    analyze_command command context = Ok r
    /\ level r = max_level (all_findings command context).
Proof.
  intros Hb. exists (verdict command context).
  split; [apply analyze_command_verdict|].
  unfold verdict, all_findings. rewrite Hb, max_level_app.
  destruct (first_critical command) as [[p reason]|] eqn:Hc.
  - rewrite (first_critical_some _ _ _ Hc), level_max_critical_l. reflexivity.
  - rewrite (first_critical_none _ Hc). cbn [max_level fold_right].
    rewrite level_max_safe_l.
    destruct (level_eqb (max_level (later_findings command context)) SAFE)
      eqn:Hs; cbn [andb level]; [|reflexivity].
    apply level_eqb_eq in Hs.
    destruct (leading_token_safe command); cbn [level]; congruence.
Qed.

Lemma max_aggregation_witness :
  exists r,
    analyze_command "sudo rm -rf logs/*" (Some (mkContext "/etc" [".env"]))
    = Ok r
    /\ level r
       = max_level (all_findings "sudo rm -rf logs/*"
                                 (Some (mkContext "/etc" [".env"]))).
Proof.
  apply (max_aggregation "sudo rm -rf logs/*" (Some (mkContext "/etc" [".env"]))).
  vm_compute. reflexivity.
Defined.

(** ** The sudo scenario *)

(** C4. On ["sudo rm -rf /var/log/*"] the CRITICAL pattern [rm\s+-rf\s+/]
    matches the text [rm -rf /] inside the command, so the analyzer stops
    there: the verdict is CRITICAL with the single reason of that
    pattern.  The sudo pattern and the wildcard pass would both report a
    finding, but neither reaches the reasons. *)
Theorem sudo_scenario context :
  analyze_command "sudo rm -rf /var/log/*" context
  = Ok (mkRisk CRITICAL ["Attempting to delete root filesystem"]
          [ "This command can cause irreversible system damage";
            "Consider alternatives or seek expert help" ])
  /\ In "Recursive deletion with sudo privileges"
        (reasons_of (high_findings "sudo rm -rf /var/log/*"))
  /\ In "Wildcard usage in potentially destructive command"
        (reasons_of (structure_findings "sudo rm -rf /var/log/*")).
Proof.
  split; [|split; vm_compute; tauto].
  rewrite analyze_command_verdict. unfold verdict.
  replace (blank "sudo rm -rf /var/log/*") with false
    by (vm_compute; reflexivity).
  replace (first_critical "sudo rm -rf /var/log/*")
    with (Some ("rm\s+-rf\s+/", "Attempting to delete root filesystem"))
    by (vm_compute; reflexivity).
  reflexivity.
Qed.

(** ** Context cannot lower the verdict *)

Lemma max_level_mono fs gs hs :
  (value (max_level (fs ++ hs)) <= value (max_level (fs ++ gs ++ hs)))%Z.
Proof.
  rewrite !max_level_app.
  destruct (max_level fs), (max_level gs), (max_level hs);
    vm_compute; discriminate.
Qed.

Lemma later_findings_mono command context :
  (value (max_level (later_findings command None))
   <= value (max_level (later_findings command context)))%Z.
Proof.
  unfold later_findings. cbn [context_findings app].
  rewrite !(app_assoc (high_findings command)).
  rewrite !(app_assoc (high_findings command ++ medium_findings command)%list).
  apply max_level_mono.
Qed.

(** C9. For every command and every context, the level of the verdict
    with the context is at least the level of the verdict without it. *)
Theorem context_never_lowers command context :
  exists r0 r,
    analyze_command command None = Ok r0
    /\ analyze_command command context = Ok r
    /\ (value (level r0) <= value (level r))%Z.
Proof.
  exists (verdict command None), (verdict command context).
  split; [apply analyze_command_verdict|].
  split; [apply analyze_command_verdict|].
  unfold verdict. destruct (blank command); [reflexivity|].
  destruct (first_critical command) as [[p reason]|]; [reflexivity|].
  pose proof (later_findings_mono command context) as Hmono.
  destruct (level_eqb (max_level (later_findings command context)) SAFE)
    eqn:Hs.
  - apply level_eqb_eq in Hs. rewrite Hs in Hmono.
    assert (H0 : max_level (later_findings command None) = SAFE)
      by (destruct (max_level (later_findings command None));
          vm_compute in Hmono; congruence).
    rewrite H0, Hs.
    destruct (leading_token_safe command); cbn; lia.
  - cbn [andb level].
    destruct (level_eqb (max_level (later_findings command None)) SAFE
              && leading_token_safe command); cbn [level]; [|exact Hmono].
    destruct (max_level (later_findings command context)); cbn; lia.
Qed.

(** ** SAFE verdicts carry no risk reason *)

(** C10. Whenever [analyze_command] returns level SAFE, its reasons are
    empty or exactly ["Safe read-only operation"]; every finding of the
    tiers and passes has a level of at least LOW. *)
Theorem safe_has_no_risk_reason command context r :
  analyze_command command context = Ok r ->
  level r = SAFE ->
  (reasons r = [] \/ reasons r = ["Safe read-only operation"])
  /\ Forall (fun f => (value LOW <= value (f_level f))%Z)
            (all_findings command context).
Proof.
  rewrite analyze_command_verdict. intros [= <-] Hsafe. split.
  - unfold verdict in *. destruct (blank command); [now left|].
    destruct (first_critical command) as [[p reason]|]; [discriminate|].
    destruct (level_eqb _ SAFE && leading_token_safe command);
      [now right|].
    cbn [level reasons] in *. left.
    rewrite (max_level_safe_nil _ (later_findings_risky command context) Hsafe).
    reflexivity.
  - unfold all_findings. apply Forall_app; split.
    + eapply List.Forall_impl; [|apply tier_findings_level].
      intros f ->. cbn. lia.
    + eapply List.Forall_impl; [|apply later_findings_risky].
      intros f Hf. unfold risky in Hf.
      destruct (f_level f); cbn; try lia. congruence.
Qed.

Lemma safe_has_no_risk_reason_witness :
  (reasons (mkRisk SAFE ["Safe read-only operation"] []) = []
   \/ reasons (mkRisk SAFE ["Safe read-only operation"] [])
      = ["Safe read-only operation"])
  /\ Forall (fun f => (value LOW <= value (f_level f))%Z)
            (all_findings "ls -la" None).
Proof.
  apply (safe_has_no_risk_reason "ls -la" None
           (mkRisk SAFE ["Safe read-only operation"] [])).
  - vm_compute. reflexivity.
  - reflexivity.
Defined.

(** ** Tokenizing blank commands *)

Lemma isspace_not_quote c :
  isspace c = true -> Shlex.quotes c = false /\ Shlex.escape c = false.
Proof.
  destruct c as [b0 b1 b2 b3 b4 b5 b6 b7].
  destruct b0, b1, b2, b3, b4, b5, b6, b7; vm_compute;
    first [discriminate | tauto].
Qed.

Lemma all_space_add token c :
  all_space token = true -> isspace c = true ->
  all_space (Shlex.add token c) = true.
Proof.
  intros Ht Hc. unfold Shlex.add.
  induction token as [|a token IH]; simpl in *.
  - now rewrite Hc.
  - apply andb_true_iff in Ht as [Ha Ht]. rewrite Ha. now apply IH.
Qed.

Lemma lex_all_space s : forall st token quoted out,
  all_space s = true -> spaces token -> Forall spaces out ->
  st = Shlex.InSpace \/ st = Shlex.InWord ->
  exists parts,
    Shlex.lex st token quoted out s = Ok parts /\ Forall spaces parts.
Proof.
  induction s as [|c s IH]; intros st token quoted out Hs Ht Ho Hst.
  - destruct Hst as [-> | ->]; cbn [Shlex.lex]; [eauto|].
    destruct (Shlex.nonempty token || quoted); eexists; split; eauto.
    apply Forall_app; split; [assumption | now constructor].
  - cbn [all_space] in Hs. apply andb_true_iff in Hs as [Hc Hs].
    destruct (isspace_not_quote c Hc) as [Hq He].
    assert (Hemit : Forall spaces (out ++ [token])%list)
      by (apply Forall_app; split; [assumption | now constructor]).
    destruct Hst as [-> | ->]; cbn [Shlex.lex]; rewrite Hq, He.
    + destruct (Shlex.whitespace c).
      * destruct (Shlex.nonempty token || quoted); apply IH; auto;
          reflexivity.
      * apply IH; auto. unfold spaces. cbn [all_space]. now rewrite Hc.
    + destruct (Shlex.whitespace c).
      * destruct (Shlex.nonempty token || quoted); apply IH; auto;
          reflexivity.
      * apply IH; auto. now apply all_space_add.
Qed.

Lemma blank_split command :
  blank command = true ->
  exists parts, Shlex.split command = Ok parts /\ Forall spaces parts.
Proof.
  intros Hb. apply lex_all_space; auto.
  - now apply blank_all_space.
  - reflexivity.
Qed.

Lemma safe_prefix_not_spaces part0 :
  part0 ∈ safe_prefixes -> spaces part0 -> False.
Proof.
  unfold safe_prefixes. rewrite elem_of_list_to_set.
  intros Hin Hsp. unfold spaces in Hsp.
  repeat (apply elem_of_cons in Hin as [-> | Hin]; [discriminate Hsp|]).
  now apply elem_of_nil in Hin.
Qed.

Lemma blank_leading_token command :
  blank command = true -> leading_token_safe command = false.
Proof.
  intros Hb. destruct (blank_split _ Hb) as (parts & Hsplit & Hsp).
  unfold leading_token_safe. rewrite Hsplit.
  destruct parts as [|part0 parts]; [reflexivity|].
  apply bool_decide_eq_false. intros Hin.
  inversion Hsp; subst. eapply safe_prefix_not_spaces; eauto.
Qed.

Lemma list_set_nil : list_set [] = [].
Proof. unfold list_set. cbn [list_to_set]. apply elements_empty. Qed.

(** ** Commands without findings *)

(** C5. For every command (the empty one included) that yields no
    finding from any pattern tier, the structural pass or the context
    pass, the verdict is SAFE; its reasons are exactly
    ["Safe read-only operation"] when the leading [shlex] token is in the
    safe-prefix set and empty otherwise. *)
Theorem safe_default command context :
  all_findings command context = [] ->
  analyze_command command context
  = Ok (mkRisk SAFE
          (if leading_token_safe command
           then ["Safe read-only operation"] else [])
          []).
Proof.
  intros Hnone. rewrite analyze_command_verdict. f_equal. unfold verdict.
  destruct (blank command) eqn:Hb.
  - now rewrite (blank_leading_token _ Hb).
  - unfold all_findings in Hnone.
    apply app_eq_nil in Hnone as [Hcrit Hlater].
    destruct (first_critical command) as [[p reason]|] eqn:Hc.
    + apply first_critical_some in Hc. rewrite Hcrit in Hc. discriminate.
    + rewrite Hlater. cbn [max_level fold_right level_eqb andb].
      change (level_eqb SAFE SAFE) with true. cbn [andb].
      destruct (leading_token_safe command); [reflexivity|].
      unfold reasons_of, suggestions_of. cbn [map concat].
      now rewrite list_set_nil.
Qed.

Lemma safe_default_witness :
  analyze_command "cat notes.txt" None
  = Ok (mkRisk SAFE
          (if leading_token_safe "cat notes.txt"
           then ["Safe read-only operation"] else [])
          [])
  /\ analyze_command "make all" (Some (mkContext "/home/user" ["a.conf"]))
     = Ok (mkRisk SAFE
             (if leading_token_safe "make all"
              then ["Safe read-only operation"] else [])
             []).
Proof.
  split.
  - apply (safe_default "cat notes.txt" None). vm_compute. reflexivity.
  - apply (safe_default "make all" (Some (mkContext "/home/user" ["a.conf"]))).
    vm_compute. reflexivity.
Defined.

(** ** Malformed commands *)

Lemma malformed_finding command msg :
  Shlex.split command = Raise (ValueError msg) ->
  In (mkFinding LOW "Command has malformed syntax"
                ["Check command syntax before execution"])
     (structure_findings command).
Proof.
  intros Hs. unfold structure_findings. rewrite Hs.
  rewrite !in_app_iff. do 4 right. now left.
Qed.

(** Every pattern of the rule tables and of the structural pass lies in
    the modelled fragment, so [re.search] raises on none of them. *)
Lemma patterns_compile :
  Forall (fun pattern => Re.compile pattern <> None)
    (map fst (critical_patterns ++ high_patterns ++ medium_patterns
              ++ low_patterns)%list
     ++ [ ">\s*(/etc|/usr|/var)"; "rm\s+.*\*"; "chmod\s+.*\*";
          "\|\s*(bash|sh|zsh|fish)" ])%list.
Proof. repeat constructor; vm_compute; discriminate. Qed.

(** C6 as stated fails for a malformed command that a CRITICAL pattern
    matches: the short circuit returns before the structural pass. *)
Lemma malformed_counterexample :
  Shlex.split "rm -rf / 'tmp" = Raise (ValueError "No closing quotation")
  /\ analyze_command "rm -rf / 'tmp" None
     = Ok (mkRisk CRITICAL ["Attempting to delete root filesystem"]
             [ "This command can cause irreversible system damage";
               "Consider alternatives or seek expert help" ])
  /\ ~ In "Command has malformed syntax"
          ["Attempting to delete root filesystem"].
Proof.
  split; [vm_compute; reflexivity|].
  split; [vm_compute; reflexivity|].
  simpl. intros [H|[]]. discriminate H.
Qed.

(** C6, amended. [analyze_command] raises on no command and no context.
    For a command that [shlex.split] rejects, the level is at least LOW;
    when no CRITICAL pattern matches, the reasons include
    ["Command has malformed syntax"], and when one matches, the verdict is
    the CRITICAL one with that pattern's single reason. *)
Theorem malformed_degrades :
  (forall command context, exists r, analyze_command command context = Ok r)
  /\ forall command context msg,
      Shlex.split command = Raise (ValueError msg) ->
      exists r,
        analyze_command command context = Ok r
        /\ (value LOW <= value (level r))%Z
        /\ match first_critical command with
           | None => In "Command has malformed syntax" (reasons r)
           | Some (_, reason) =>
               level r = CRITICAL /\ reasons r = [reason]
           end.
Proof.
  split; [intros; eexists; apply analyze_command_verdict|].
  intros command context msg Hs.
  exists (verdict command context).
  split; [apply analyze_command_verdict|].
  unfold verdict. destruct (blank command) eqn:Hb.
  { destruct (blank_split _ Hb) as (parts & Hp & _). congruence. }
  destruct (first_critical command) as [[p reason]|].
  - cbn. split; [lia | split; reflexivity].
  - pose proof (malformed_finding _ _ Hs) as Hin.
    assert (Hlater : In (mkFinding LOW "Command has malformed syntax"
                           ["Check command syntax before execution"])
                        (later_findings command context)).
    { unfold later_findings. rewrite !in_app_iff. do 4 right. exact Hin. }
    pose proof (max_level_ge _ _ Hlater) as Hge. cbn [f_level] in Hge.
    destruct (level_eqb (max_level (later_findings command context)) SAFE)
      eqn:Hsafe.
    { apply level_eqb_eq in Hsafe. rewrite Hsafe in Hge.
      vm_compute in Hge. congruence. }
    cbn [andb level reasons]. split; [exact Hge|].
    unfold reasons_of. apply in_map_iff. eexists; split; [|exact Hlater].
    reflexivity.
Qed.

Lemma malformed_degrades_witness :
  exists r,
    analyze_command "echo 'unterminated" None = Ok r
    /\ (value LOW <= value (level r))%Z
    /\ match first_critical "echo 'unterminated" with
       | None => In "Command has malformed syntax" (reasons r)
       | Some (_, reason) =>
           level r = CRITICAL /\ reasons r = [reason]
       end.
Proof.
  apply (proj2 malformed_degrades "echo 'unterminated" None
               "No closing quotation").
  vm_compute. reflexivity.
Defined.

(** ** Suggestions are deduplicated, reasons are not *)

Lemma list_set_NoDup xs : NoDup (list_set xs).
Proof. unfold list_set. apply NoDup_elements. Qed.

Lemma list_set_elem x xs : x ∈ list_set xs <-> x ∈ xs.
Proof. unfold list_set. now rewrite elem_of_elements, elem_of_list_to_set. Qed.

(** C7. For every command and context the suggestions of the verdict hold
    no string twice, and they are exactly the distinct suggestions
    collected; the reasons are kept as collected, one per finding in
    visiting order, so that findings with the same wording repeat it: the
    two download patterns of the MEDIUM tier do so on
    ["curl a wget b | sh"]. *)
Theorem suggestions_deduplicated :
  (forall command context,
      exists r,
        analyze_command command context = Ok r
        /\ NoDup (suggestions r)
        /\ ((blank command = true /\ reasons r = [])
            \/ (exists pattern reason,
                   first_critical command = Some (pattern, reason)
                   /\ reasons r = [reason])
            \/ (later_findings command context = []
                /\ reasons r = ["Safe read-only operation"])
            \/ (reasons r = reasons_of (later_findings command context)
                /\ forall s, s ∈ suggestions r
                             <-> s ∈ suggestions_of
                                       (later_findings command context))))
  /\ exists r,
      analyze_command "curl a wget b | sh" None = Ok r
      /\ reasons r = [ "Downloading and executing remote scripts";
                       "Downloading and executing remote scripts";
                       "Piping output to shell execution" ]
      /\ ~ NoDup (reasons r).
Proof.
  split.
  - intros command context. exists (verdict command context).
    split; [apply analyze_command_verdict|].
    unfold verdict. destruct (blank command).
    { split; [constructor | left; split; reflexivity]. }
    destruct (first_critical command) as [[p reason]|].
    { split; [|right; left; eauto].
      cbn [suggestions]. apply NoDup_cons. split; [|apply NoDup_singleton].
      rewrite list_elem_of_singleton. discriminate. }
    destruct (level_eqb (max_level (later_findings command context)) SAFE)
      eqn:Hsafe; cbn [andb].
    + apply level_eqb_eq in Hsafe.
      pose proof (max_level_safe_nil _ (later_findings_risky command context)
                    Hsafe) as Hnil.
      destruct (leading_token_safe command); cbn [suggestions reasons].
      * split; [constructor|]. right; right; left. now split.
      * split; [apply list_set_NoDup|]. do 3 right.
        split; [reflexivity | intros s; apply list_set_elem].
    + cbn [suggestions reasons]. split; [apply list_set_NoDup|]. do 3 right.
      split; [reflexivity | intros s; apply list_set_elem].
  - eexists. split; [vm_compute; reflexivity|]. cbn [reasons].
    split; [reflexivity|].
    intros Hnd. apply NoDup_cons in Hnd as [Hnotin _].
    apply Hnotin. left.
Qed.

(** ** The confirmation protocol *)

Import Core.

Lemma prompts_app l1 l2 : prompts (l1 ++ l2) = (prompts l1 ++ prompts l2)%list.
Proof.
  induction l1 as [|e l1 IH]; [reflexivity|].
  destruct e; cbn [app prompts]; rewrite IH; reflexivity.
Qed.

Lemma printed_app l1 l2 : printed (l1 ++ l2) = (printed l1 ++ printed l2)%list.
Proof.
  induction l1 as [|e l1 IH]; [reflexivity|].
  destruct e; cbn [app printed]; rewrite IH; reflexivity.
Qed.

Lemma executed_app l1 l2 : executed (l1 ++ l2) = executed l1 || executed l2.
Proof. apply existsb_app. Qed.

Lemma print_each_run prefix lines c :
  print_each prefix lines c
  = (Ok tt, mkConsole (asked c)
                      (log c ++ map (fun l => Print (prefix ++ l)) lines)).
Proof.
  revert c. induction lines as [|l lines IH]; intros [n lg].
  - cbn. now rewrite app_nil_r.
  - cbn [print_each]. unfold seq, print, emit. cbn [asked log].
    rewrite IH. cbn [asked log map]. now rewrite <- app_assoc.
Qed.

Lemma tips_log_quiet command :
  prompts (tips_log command) = [] /\ executed (tips_log command) = false.
Proof.
  unfold tips_log. destruct (get_safety_tips command) as [|t ts];
    [split; reflexivity|].
  generalize (t :: ts) as tips. intros tips.
  cbn [prompts executed existsb is_execute orb].
  rewrite prompts_app. unfold executed. rewrite existsb_app. cbn.
  rewrite !app_nil_r, orb_false_r.
  induction tips as [|a tips [IH1 IH2]]; [split; reflexivity|].
  cbn. now split.
Qed.

Lemma outcome_log_runs shell command user_input kind :
  prompts (outcome_log shell command user_input kind) = []
  /\ executed (outcome_log shell command user_input kind) = true.
Proof.
  unfold outcome_log. destruct (shell command) as [[ok out] err].
  split; reflexivity.
Qed.

Lemma finish_natural_run shell user_input response c :
  finish_natural shell user_input response c
  = (Ok true,
     mkConsole (asked c)
       (log c ++ tips_log (command response)
        ++ outcome_log shell (command response) user_input NATURAL)).
Proof.
  unfold finish_natural, tips_log, outcome_log, execute_command,
    display_output.
  destruct c as [n lg].
  destruct (get_safety_tips (command response)) as [|t ts].
  - unfold seq, ret, emit. cbn [asked log].
    destruct (shell (command response)) as [[ok out] err]. cbn [asked log].
    now rewrite <- !app_assoc.
  - unfold seq at 1 2. unfold print at 1. unfold emit at 1. cbn [asked log].
    unfold seq at 1. rewrite print_each_run. cbn [asked log].
    unfold print, emit, seq, ret. cbn [asked log].
    destruct (shell (command response)) as [[ok out] err]. cbn [asked log].
    rewrite <- !app_assoc. do 3 f_equal. simpl.
    rewrite <- ?app_assoc. reflexivity.
Qed.

Lemma finish_direct_run shell command c :
  finish_direct shell command c
  = (Ok true,
     mkConsole (asked c)
               (log c ++ outcome_log shell command command DIRECT)).
Proof.
  unfold finish_direct, outcome_log, execute_command, display_output.
  destruct c as [n lg]. unfold seq, ret, emit. cbn [asked log].
  destruct (shell command) as [[ok out] err]. cbn [asked log].
  now rewrite <- !app_assoc.
Qed.

Lemma natural_critical_run always_confirm user ctx shell user_input response risk :
  translated response ->
  analyze_command (command response) ctx = Ok risk ->
  level risk = CRITICAL ->
  _handle_natural_language always_confirm user ctx shell user_input response
                            fresh
  = (Ok true,
     if accepts user 0 then
       if accepts user 1 then
         mkConsole 2
           (critical_preamble response risk
            ++ [Ask "Are you absolutely certain you want to proceed?" false]
            ++ tips_log (command response)
            ++ outcome_log shell (command response) user_input NATURAL)
       else
         mkConsole 2
           (critical_preamble response risk
            ++ [ Ask "Are you absolutely certain you want to proceed?" false;
                 Print "Command cancelled." ])
     else
       mkConsole 1
         (critical_preamble response risk
          ++ [Print "Command cancelled for safety."])).
Proof.
  intros [Herr Hcmd] Hrisk Hlevel.
  destruct risk as [lvl rs ss]. cbn [level] in Hlevel. subst lvl.
  destruct response as [cmd expl err]. cbn [error command explanation] in *.
  unfold _handle_natural_language, critical_preamble.
  cbn [error command explanation].
  assert (Hfin : forall c, finish_natural shell user_input
                             (mkResponse cmd expl err) c
                           = (Ok true,
                              mkConsole (asked c)
                                (log c ++ tips_log cmd
                                 ++ outcome_log shell cmd user_input NATURAL)))
    by (intros c; apply finish_natural_run).
  generalize dependent (finish_natural shell user_input
                          (mkResponse cmd expl err)).
  intros run Hfin.
  destruct Herr as [-> | ->]; rewrite Hcmd; cbn [negb];
    unfold seq at 1; unfold analyze_command_safety, lift; rewrite Hrisk;
    unfold requires_confirmation; cbn [level value Z.geb Z.compare];
    rewrite orb_true_r;
    unfold seq, emit, print, confirm_or_cancel, Confirm_ask, ret, fresh,
      accepts;
    cbn;
    (destruct (user 0) as [[|]|]; cbn;
     [destruct (user 1) as [[|]|]; cbn; rewrite ?Hfin; reflexivity
     | reflexivity | reflexivity]).
Qed.

Lemma natural_medium_run always_confirm user ctx shell user_input response risk :
  translated response ->
  analyze_command (command response) ctx = Ok risk ->
  level risk = MEDIUM ->
  _handle_natural_language always_confirm user ctx shell user_input response
                            fresh
  = (Ok true,
     mkConsole 1
       ([ Preview (command response) (explanation response) risk;
          Print "MODERATE RISK: This command requires careful consideration.";
          Ask "Proceed with this potentially risky command?" true ]
        ++ if declines user 0 then [Print "Command cancelled."]
           else tips_log (command response)
                ++ outcome_log shell (command response) user_input NATURAL)).
Proof.
  intros [Herr Hcmd] Hrisk Hlevel.
  destruct risk as [lvl rs ss]. cbn [level] in Hlevel. subst lvl.
  destruct response as [cmd expl err]. cbn [error command explanation] in *.
  unfold _handle_natural_language. cbn [error command explanation].
  assert (Hfin : forall c, finish_natural shell user_input
                             (mkResponse cmd expl err) c
                           = (Ok true,
                              mkConsole (asked c)
                                (log c ++ tips_log cmd
                                 ++ outcome_log shell cmd user_input NATURAL)))
    by (intros c; apply finish_natural_run).
  generalize dependent (finish_natural shell user_input
                          (mkResponse cmd expl err)).
  intros run Hfin.
  destruct Herr as [-> | ->]; rewrite Hcmd; cbn [negb];
    unfold seq at 1; unfold analyze_command_safety, lift; rewrite Hrisk;
    unfold requires_confirmation; cbn [level value Z.geb Z.compare];
    rewrite orb_true_r;
    unfold seq, emit, print, confirm_or_cancel, Confirm_ask, ret, fresh,
      declines;
    cbn;
    (destruct (user 0) as [[|]|]; cbn; rewrite ?Hfin; reflexivity).
Qed.

Lemma direct_unsafe_run user ctx shell command risk :
  analyze_command command ctx = Ok risk ->
  _handle_direct_command false user ctx shell command fresh
  = (Ok true, mkConsole 0 (outcome_log shell command command DIRECT)).
Proof.
  intros Hrisk. unfold _handle_direct_command.
  unfold seq at 1. unfold analyze_command_safety, lift. rewrite Hrisk.
  cbn [andb]. rewrite finish_direct_run. reflexivity.
Qed.

(** With [safe_mode] set, the direct handler compares two [DangerLevel]
    members with [>=] as soon as the verdict asks for confirmation, and
    stops there with [TypeError]: nothing was printed, asked or run. *)
Lemma direct_safe_mode_raises user ctx shell command risk :
  analyze_command command ctx = Ok risk ->
  requires_confirmation risk = true ->
  exists msg,
    _handle_direct_command true user ctx shell command fresh
    = (Raise (TypeError msg), fresh).
Proof.
  intros Hrisk Hreq. unfold _handle_direct_command.
  unfold seq at 1. unfold analyze_command_safety, lift. rewrite Hrisk.
  rewrite Hreq. cbn [andb]. unfold seq at 1. cbn. eauto.
Qed.

Lemma before_execute_app l1 l2 :
  executed l1 = false ->
  before_execute (l1 ++ l2) = (l1 ++ before_execute l2)%list.
Proof.
  induction l1 as [|e l1 IH]; [reflexivity|].
  unfold executed. cbn [existsb app before_execute].
  destruct (is_execute e); [discriminate|]. intros H. now rewrite IH.
Qed.

Lemma before_execute_tips shell command user_input kind :
  prompts (before_execute (tips_log command
                           ++ outcome_log shell command user_input kind)) = [].
Proof.
  destruct (tips_log_quiet command) as [Hp He].
  rewrite before_execute_app by exact He.
  rewrite prompts_app, Hp. unfold outcome_log.
  destruct (shell command) as [[ok out] err]. reflexivity.
Qed.

(** C3. For a command whose verdict is CRITICAL, the natural-language
    flow does what the claim says: it asks two distinct confirmations in
    sequence, both defaulting to decline, the second only after the first
    was accepted and both before anything is executed; the command runs
    exactly when both are accepted, and declining either one ends the
    handler on a cancellation message.  The direct-command flow does
    not: with [safe_mode] set, the comparison
    [risk.level >= DangerLevel.MEDIUM] raises [TypeError] before the
    confirmation is reached, so no prompt is shown, nothing is executed
    and the handler ends on the exception. *)
Theorem critical_confirmation
    always_confirm user ctx shell user_input response risk :
  translated response ->
  analyze_command (command response) ctx = Ok risk ->
  level risk = CRITICAL ->
  let c := snd (_handle_natural_language always_confirm user ctx shell
                  user_input response fresh) in
  let d := _handle_direct_command true user ctx shell (command response)
             fresh in
  let first := "Type 'I understand the risks' to continue" in
  let second := "Are you absolutely certain you want to proceed?" in
  first <> second
  /\ prompts (log c)
     = (if accepts user 0 then [(first, false); (second, false)]
        else [(first, false)])
  /\ prompts (before_execute (log c)) = prompts (log c)
  /\ executed (log c) = accepts user 0 && accepts user 1
  /\ (accepts user 0 = false ->
      last (printed (log c)) = Some "Command cancelled for safety.")
  /\ (accepts user 0 = true -> accepts user 1 = false ->
      last (printed (log c)) = Some "Command cancelled.")
  /\ (exists msg, fst d = Raise (TypeError msg))
  /\ prompts (log (snd d)) = []
  /\ executed (log (snd d)) = false.
Proof.
  intros Htr Hrisk Hlevel. cbv zeta.
  rewrite (natural_critical_run always_confirm user ctx shell user_input
             response risk Htr Hrisk Hlevel).
  assert (Hreq : requires_confirmation risk = true)
    by (unfold requires_confirmation; now rewrite Hlevel).
  destruct (direct_safe_mode_raises user ctx shell (command response) risk
              Hrisk Hreq) as (msg & ->).
  assert (Hraise : exists m, Raise (A := bool) (TypeError msg)
                             = Raise (TypeError m)) by eauto.
  cbn [fst snd log fresh prompts executed existsb].
  destruct (outcome_log_runs shell (command response) user_input NATURAL)
    as [Hop Hoe].
  destruct (tips_log_quiet (command response)) as [Htp Hte].
  split; [discriminate|].
  unfold critical_preamble.
  destruct (accepts user 0); [destruct (accepts user 1)|]; cbn [log andb].
  - repeat split; try assumption; try discriminate.
    + cbn [app prompts]. now rewrite prompts_app, Htp, Hop.
    + cbn [app before_execute is_execute prompts].
      rewrite before_execute_tips, prompts_app, Htp, Hop. reflexivity.
    + cbn [app]. unfold executed. cbn [existsb is_execute orb].
      fold (executed (tips_log (command response)
                      ++ outcome_log shell (command response) user_input
                                     NATURAL)%list).
      now rewrite executed_app, Hte, Hoe.
  - repeat split; try assumption; try discriminate; reflexivity.
  - repeat split; try assumption; try discriminate; reflexivity.
Qed.

Lemma critical_confirmation_witness :
  let user := fun n : nat => match n with 0 => Some true | _ => None end in
  let shell := fun _ : string => (true, EmptyString, EmptyString) in
  let response := mkResponse "rm -rf /" None None in
  let c := snd (_handle_natural_language false user None shell
                  "delete everything" response fresh) in
  let d := _handle_direct_command true user None shell (command response)
             fresh in
  let first := "Type 'I understand the risks' to continue" in
  let second := "Are you absolutely certain you want to proceed?" in
  first <> second
  /\ prompts (log c)
     = (if accepts user 0 then [(first, false); (second, false)]
        else [(first, false)])
  /\ prompts (before_execute (log c)) = prompts (log c)
  /\ executed (log c) = accepts user 0 && accepts user 1
  /\ (accepts user 0 = false ->
      last (printed (log c)) = Some "Command cancelled for safety.")
  /\ (accepts user 0 = true -> accepts user 1 = false ->
      last (printed (log c)) = Some "Command cancelled.")
  /\ (exists msg, fst d = Raise (TypeError msg))
  /\ prompts (log (snd d)) = []
  /\ executed (log (snd d)) = false.
Proof.
  apply (critical_confirmation false
           (fun n : nat => match n with 0 => Some true | _ => None end)
           None (fun _ : string => (true, EmptyString, EmptyString))
           "delete everything" (mkResponse "rm -rf /" None None)
           (mkRisk CRITICAL ["Attempting to delete root filesystem"]
              [ "This command can cause irreversible system damage";
                "Consider alternatives or seek expert help" ])).
  - split; [left; reflexivity | vm_compute; reflexivity].
  - vm_compute. reflexivity.
  - reflexivity.
Defined.

(** C8. For a command whose verdict is MEDIUM, the natural-language
    flow presents exactly one confirmation, whose default is accept: the
    command runs unless the user answers no.  The direct-command flow
    never presents its confirmation: with [safe_mode] set, the comparison
    [risk.level >= DangerLevel.MEDIUM] raises [TypeError] before the
    prompt is reached, so nothing is asked or executed and the handler
    ends on the exception. *)
Theorem medium_confirmation
    always_confirm user ctx shell user_input response risk :
  translated response ->
  analyze_command (command response) ctx = Ok risk ->
  level risk = MEDIUM ->
  let c := snd (_handle_natural_language always_confirm user ctx shell
                  user_input response fresh) in
  let d := _handle_direct_command true user ctx shell (command response)
             fresh in
  prompts (log c) = [("Proceed with this potentially risky command?", true)]
  /\ executed (log c) = negb (declines user 0)
  /\ (exists msg, fst d = Raise (TypeError msg))
  /\ prompts (log (snd d)) = []
  /\ executed (log (snd d)) = false.
Proof.
  intros Htr Hrisk Hlevel. cbv zeta.
  rewrite (natural_medium_run always_confirm user ctx shell user_input
             response risk Htr Hrisk Hlevel).
  assert (Hreq : requires_confirmation risk = true)
    by (unfold requires_confirmation; now rewrite Hlevel).
  destruct (direct_safe_mode_raises user ctx shell (command response) risk
              Hrisk Hreq) as (msg & ->).
  assert (Hraise : exists m, Raise (A := bool) (TypeError msg)
                             = Raise (TypeError m)) by eauto.
  cbn [fst snd log fresh].
  destruct (outcome_log_runs shell (command response) user_input NATURAL)
    as [Hop Hoe].
  destruct (tips_log_quiet (command response)) as [Htp Hte].
  repeat split; try assumption; try reflexivity.
  - cbn [app prompts]. destruct (declines user 0); [reflexivity|].
    now rewrite prompts_app, Htp, Hop.
  - cbn [app]. unfold executed at 1. cbn [existsb is_execute orb].
    destruct (declines user 0); [reflexivity|].
    fold (executed (tips_log (command response)
                    ++ outcome_log shell (command response) user_input
                                   NATURAL)%list).
    now rewrite executed_app, Hte, Hoe.
Qed.

Lemma medium_confirmation_witness :
  let user := fun _ : nat => @None bool in
  let shell := fun _ : string => (true, EmptyString, EmptyString) in
  let response := mkResponse "rm -rf temp_folder" None None in
  let c := snd (_handle_natural_language false user None shell
                  "remove the temp folder" response fresh) in
  let d := _handle_direct_command true user None shell (command response)
             fresh in
  prompts (log c) = [("Proceed with this potentially risky command?", true)]
  /\ executed (log c) = negb (declines user 0)
  /\ (exists msg, fst d = Raise (TypeError msg))
  /\ prompts (log (snd d)) = []
  /\ executed (log (snd d)) = false.
Proof.
  apply (medium_confirmation false (fun _ : nat => @None bool) None
           (fun _ : string => (true, EmptyString, EmptyString))
           "remove the temp folder"
           (mkResponse "rm -rf temp_folder" None None)
           (mkRisk MEDIUM ["Recursive deletion"]
              ["Verify the operation is intended and paths are correct"])).
  - split; [left; reflexivity | vm_compute; reflexivity].
  - vm_compute. reflexivity.
  - reflexivity.
Defined.

(** ** The protected paths are iterated in an unobservable order *)

Lemma startswith_two s : forall p q,
  startswith s p = true -> startswith s q = true ->
  startswith p q = true \/ startswith q p = true.
Proof.
  induction s as [|c s IH]; intros [|a p] [|b q]; cbn [startswith]; auto;
    try discriminate.
  intros Hp Hq.
  apply andb_true_iff in Hp as [Ha Hp]. apply andb_true_iff in Hq as [Hb Hq].
  apply Ascii.eqb_eq in Ha, Hb. subst a b. rewrite Ascii.eqb_refl.
  cbn [andb]. now apply IH.
Qed.

(** At most one protected path other than the root is a prefix of a given
    working directory, so [_analyze_context] adds at most one
    protected-directory finding whatever order the set is visited in. *)
Lemma protected_at_most_one cwd_path p q :
  In p protected_paths -> In q protected_paths ->
  p <> "/" -> q <> "/" ->
  startswith cwd_path p = true -> startswith cwd_path q = true ->
  p = q.
Proof.
  intros Hp Hq Hnp Hnq Hsp Hsq.
  destruct (startswith_two _ _ _ Hsp Hsq) as [H|H]; clear Hsp Hsq;
    cbn [protected_paths In] in Hp, Hq;
    repeat (destruct Hp as [<-|Hp]; [|]); try contradiction;
    repeat (destruct Hq as [<-|Hq]; [|]); try contradiction;
    try reflexivity; try congruence; vm_compute in H; discriminate.
Qed.

(** * Further properties of the analyzer *)

Import Session.

Lemma lstrip_all_space s : all_space s = true -> lstrip s = EmptyString.
Proof.
  induction s as [|c s IH]; [reflexivity|].
  cbn [all_space lstrip]. intros H. apply andb_true_iff in H as [Hc Hs].
  rewrite Hc. now apply IH.
Qed.

Lemma all_space_blank command : all_space command = true -> blank command = true.
Proof.
  intros H. unfold blank, strip. now rewrite (lstrip_all_space _ H).
Qed.

(** X1. A command made of white space only (the empty command
    included) is answered SAFE with no reason and no suggestion, whatever
    the context: no pass looks at it. *)
Theorem blank_is_safe command context :
  all_space command = true ->
  analyze_command command context = Ok (mkRisk SAFE [] []).
Proof.
  intros H. rewrite analyze_command_verdict. unfold verdict.
  now rewrite (all_space_blank _ H).
Qed.

Lemma blank_is_safe_witness :
  analyze_command (String " " (String (ascii_of_N 9) " "))
                  (Some (mkContext "/etc" [".env"]))
  = Ok (mkRisk SAFE [] []).
Proof.
  apply (blank_is_safe (String " " (String (ascii_of_N 9) " "))
                       (Some (mkContext "/etc" [".env"]))).
  reflexivity.
Defined.

(** ** CRITICAL comes from the CRITICAL tier only *)

Lemma max_level_not_critical fs :
  Forall (fun f => f_level f <> CRITICAL) fs -> max_level fs <> CRITICAL.
Proof.
  induction fs as [|f fs IH]; [discriminate|].
  intros Hall. inversion Hall as [|? ? Hf Hfs]; subst.
  cbn [max_level fold_right]. specialize (IH Hfs).
  change (fold_right (fun f m => level_max (f_level f) m) SAFE fs)
    with (max_level fs).
  destruct (f_level f), (max_level fs); cbn; congruence.
Qed.

Lemma later_findings_not_critical command context :
  Forall (fun f => f_level f <> CRITICAL) (later_findings command context).
Proof.
  assert (Ht : forall lvl sugg pats text,
             lvl <> CRITICAL ->
             Forall (fun f => f_level f <> CRITICAL)
                    (tier_findings lvl sugg pats text)).
  { intros lvl sugg pats text Hl.
    eapply List.Forall_impl; [|apply tier_findings_level].
    intros f ->. exact Hl. }
  unfold later_findings.
  apply Forall_app; split; [apply Ht; discriminate|].
  apply Forall_app; split; [apply Ht; discriminate|].
  apply Forall_app; split; [apply Ht; discriminate|].
  apply Forall_app; split.
  - destruct context as [ctx|]; cbn [context_findings]; [|constructor].
    apply Forall_app; split.
    + destruct (Shlex.nonempty (cwd ctx)); [|constructor].
      apply List.Forall_forall. intros f Hf.
      apply in_map_iff in Hf as (e & <- & _). cbn. discriminate.
    + apply Forall_when. cbn. discriminate.
  - unfold structure_findings.
    apply Forall_app; split; [apply Forall_when; cbn; discriminate|].
    apply Forall_app; split; [apply Forall_when; cbn; discriminate|].
    apply Forall_app; split; [apply Forall_when; cbn; discriminate|].
    apply Forall_app; split; [apply Forall_when; cbn; discriminate|].
    destruct (Shlex.split command) as [[|part0 parts]|e];
      try (apply Forall_when; cbn; discriminate);
      repeat constructor; cbn; discriminate.
Qed.

(** X2. A verdict is CRITICAL exactly when a pattern of the CRITICAL
    tier matches the normalised command: the other tiers, the context
    pass and the structural pass never raise a verdict to CRITICAL. *)
Theorem critical_only_from_tier command context :
  exists r,
    analyze_command command context = Ok r
    /\ (level r = CRITICAL
        <-> exists pattern reason,
              In (pattern, reason) critical_patterns
              /\ Re.search pattern (strip (lower command)) = true).
Proof.
  exists (verdict command context).
  split; [apply analyze_command_verdict|].
  unfold verdict. destruct (blank command) eqn:Hb.
  - cbn [level]. split; [discriminate|].
    intros Hm. apply critical_match_first in Hm as (p & r & Hf).
    rewrite (blank_not_critical _ Hb) in Hf. discriminate.
  - destruct (first_critical command) as [[p reason]|] eqn:Hc.
    + cbn [level]. split; [|reflexivity]. intros _.
      exists p, reason. now apply first_critical_in.
    + split.
      * intros Hl. exfalso.
        apply (max_level_not_critical _
                 (later_findings_not_critical command context)).
        destruct (level_eqb _ SAFE && leading_token_safe command);
          [discriminate Hl | exact Hl].
      * intros Hm. apply critical_match_first in Hm as (p & r & Hf).
        rewrite Hc in Hf. discriminate.
Qed.

(** ** Letter case *)

Lemma nonempty_lower s : Shlex.nonempty (lower s) = Shlex.nonempty s.
Proof. now destruct s. Qed.

Lemma blank_by_lower command :
  blank command = negb (Shlex.nonempty (strip (lower command))).
Proof. unfold blank. now rewrite strip_lower, nonempty_lower. Qed.

(** X3. The CRITICAL tier ignores letter case: when a command gets a
    CRITICAL verdict, every command that differs from it only in the case
    of its letters gets the same verdict, in any context. *)
Theorem critical_ignores_case a b context context' r :
  lower a = lower b ->
  analyze_command a context = Ok r ->
  level r = CRITICAL ->
  analyze_command b context' = Ok r.
Proof.
  intros Hlow. rewrite !analyze_command_verdict. intros [= <-] Hl.
  f_equal. unfold verdict in *. rewrite (blank_by_lower a) in *.
  rewrite (blank_by_lower b). unfold first_critical in *.
  rewrite <- Hlow.
  destruct (negb (Shlex.nonempty (strip (lower a)))); [reflexivity|].
  destruct (find _ critical_patterns) as [[p reason]|]; [reflexivity|].
  exfalso.
  apply (max_level_not_critical _ (later_findings_not_critical a context)).
  destruct (level_eqb _ SAFE && leading_token_safe a);
    [discriminate Hl | exact Hl].
Qed.

Lemma critical_ignores_case_witness :
  analyze_command "RM  -Rf /" (Some (mkContext "/tmp" []))
  = Ok (mkRisk CRITICAL ["Attempting to delete root filesystem"]
          [ "This command can cause irreversible system damage";
            "Consider alternatives or seek expert help" ]).
Proof.
  apply (critical_ignores_case "rm  -rf /" "RM  -Rf /" None
           (Some (mkContext "/tmp" []))).
  - reflexivity.
  - vm_compute. reflexivity.
  - reflexivity.
Defined.

(** ** Patterns that need a character the text lacks *)

Lemma needs_not_nullable c r : needs c r = true -> Re.nullable r = false.
Proof.
  induction r; cbn [needs Re.nullable]; try discriminate; try reflexivity.
  - intros H. apply orb_true_iff in H as [H|H].
    + now rewrite IHr1.
    + rewrite IHr2 by assumption. apply andb_false_r.
  - intros H. apply andb_true_iff in H as [H1 H2].
    now rewrite IHr1, IHr2.
Qed.

Lemma needs_cat c r1 r2 :
  needs c r1 || needs c r2 = true -> needs c (Re.cat r1 r2) = true.
Proof.
  intros H. destruct r1; cbn [Re.cat needs] in *; try reflexivity;
    destruct r2; cbn [needs] in *; try reflexivity; try assumption;
    try discriminate.
  all: rewrite ?orb_false_r in H; assumption.
Qed.

Lemma needs_alt c r1 r2 :
  needs c r1 = true -> needs c r2 = true -> needs c (Re.alt r1 r2) = true.
Proof.
  intros H1 H2. destruct r1; cbn [Re.alt needs] in *; try assumption;
    try discriminate;
    destruct r2; cbn [needs] in *; try reflexivity; try discriminate;
    rewrite ?H1, ?H2; reflexivity.
Qed.

Lemma only_char_misses c a items :
  forallb (only_char c) items = true -> Ascii.eqb a c = false ->
  existsb (Re.item_has a) items = false.
Proof.
  intros Hall Hne. induction items as [|i items IH]; [reflexivity|].
  cbn [forallb existsb] in *. apply andb_true_iff in Hall as [Hi Hall].
  rewrite (IH Hall), orb_false_r.
  destruct i; cbn [only_char Re.item_has] in *; try discriminate.
  apply Ascii.eqb_eq in Hi. subst c0.
  rewrite Ascii.eqb_sym. exact Hne.
Qed.

Lemma needs_deriv c a r :
  Ascii.eqb a c = false -> needs c r = true ->
  needs c (Re.deriv a r) = true.
Proof.
  intros Hne. induction r; cbn [needs Re.deriv]; try discriminate;
    try reflexivity.
  - intros H. apply andb_true_iff in H as [Hn Hall].
    destruct negated; [discriminate|].
    unfold Re.cset_has. rewrite (only_char_misses _ _ _ Hall Hne).
    reflexivity.
  - intros H. apply orb_true_iff in H as [H|H].
    + rewrite (needs_not_nullable _ _ H).
      apply needs_cat. now rewrite IHr1.
    + destruct (Re.nullable r1).
      * apply needs_alt; [|now apply IHr2].
        apply needs_cat. rewrite H. apply orb_true_r.
      * apply needs_cat. rewrite H. apply orb_true_r.
  - intros H. apply andb_true_iff in H as [H1 H2].
    apply needs_alt; auto.
Qed.

Lemma needs_no_prefix c s : forall r,
  needs c r = true -> lacks c s = true -> Re.match_prefix r s = false.
Proof.
  induction s as [|a s IH]; intros r Hr Hs; cbn [Re.match_prefix];
    rewrite (needs_not_nullable _ _ Hr); cbn [orb]; [reflexivity|].
  cbn [lacks] in Hs. apply andb_true_iff in Hs as [Ha Hs].
  apply negb_true_iff in Ha.
  destruct (Re.is_void (Re.deriv a r)); [reflexivity|].
  apply IH; [now apply needs_deriv | assumption].
Qed.

Lemma needs_no_match c r s :
  needs c r = true -> lacks c s = true -> Re.search_re r s = false.
Proof.
  intros Hr. induction s as [|a s IH]; intros Hs; cbn [Re.search_re];
    rewrite (needs_no_prefix _ _ _ Hr Hs); cbn [orb]; [reflexivity|].
  cbn [lacks] in Hs. apply andb_true_iff in Hs as [_ Hs]. now apply IH.
Qed.

(** A pattern that needs a character matches no text without it. *)
Lemma pattern_needs_no_match c pattern s :
  pattern_needs c pattern = true -> lacks c s = true ->
  Re.search pattern s = false.
Proof.
  unfold pattern_needs, Re.search.
  destruct (Re.compile pattern) as [r|]; [|reflexivity].
  apply needs_no_match.
Qed.

Lemma lacks_lstrip c s : lacks c s = true -> lacks c (lstrip s) = true.
Proof.
  induction s as [|a s IH]; [reflexivity|].
  cbn [lstrip]. destruct (isspace a); [|tauto].
  cbn [lacks]. intros H. apply andb_true_iff in H as [_ H]. now apply IH.
Qed.

Lemma lacks_rstrip c s : lacks c s = true -> lacks c (rstrip s) = true.
Proof.
  induction s as [|a s IH]; [reflexivity|].
  cbn [lacks rstrip]. intros H. apply andb_true_iff in H as [Ha H].
  specialize (IH H). destruct (rstrip s).
  - destruct (isspace a); [reflexivity|]. cbn [lacks]. now rewrite Ha.
  - cbn [lacks] in *. now rewrite Ha, IH.
Qed.

Lemma lacks_strip c s : lacks c s = true -> lacks c (strip s) = true.
Proof. intros H. unfold strip. now apply lacks_rstrip, lacks_lstrip. Qed.

Lemma lower_char_not_upper a :
  Py.between 65 90 (lower_char a) = false.
Proof.
  destruct a as [b0 b1 b2 b3 b4 b5 b6 b7].
  destruct b0, b1, b2, b3, b4, b5, b6, b7; reflexivity.
Qed.

(** Lower-cased text holds no capital letter. *)
Lemma lower_lacks_upper c s :
  Py.between 65 90 c = true -> lacks c (lower s) = true.
Proof.
  intros Hc. induction s as [|a s IH]; [reflexivity|].
  cbn [lower lacks]. rewrite IH, andb_true_r.
  apply negb_true_iff. destruct (Ascii.eqb (lower_char a) c) eqn:E;
    [|reflexivity].
  apply Ascii.eqb_eq in E. rewrite <- E, lower_char_not_upper in Hc.
  discriminate.
Qed.

Lemma command_lower_lacks_upper c command :
  Py.between 65 90 c = true -> lacks c (strip (lower command)) = true.
Proof. intros Hc. now apply lacks_strip, lower_lacks_upper. Qed.

(** ** Where the reasons of a verdict come from *)

Lemma tier_reason_origin lvl sugg pats text x :
  In x (reasons_of (tier_findings lvl sugg pats text)) ->
  exists pattern, In (pattern, x) pats /\ Re.search pattern text = true.
Proof.
  unfold reasons_of, tier_findings. rewrite map_map. cbn [f_reason].
  intros H. apply in_map_iff in H as ([p r] & <- & Hin).
  apply filter_In in Hin as [Hin Hs]. exists p. now split.
Qed.

Lemma reasons_of_app fs gs :
  reasons_of (fs ++ gs) = (reasons_of fs ++ reasons_of gs)%list.
Proof. apply map_app. Qed.

Lemma reasons_of_when b f x :
  In x (reasons_of (when b f)) -> b = true /\ x = f_reason f.
Proof. destruct b; cbn; [intros [<-|[]]; now split | tauto]. Qed.

Lemma context_reason_origin command context x :
  In x (reasons_of (context_findings command context)) ->
  (exists protected,
      In protected protected_paths
      /\ x = "Operating in protected directory: " ++ protected)
  \/ x = "Command may affect configuration files".
Proof.
  destruct context as [ctx|]; cbn [context_findings]; [|intros []].
  rewrite reasons_of_app, in_app_iff. intros [H|H].
  - left. destruct (Shlex.nonempty (cwd ctx)); [|destruct H].
    unfold reasons_of in H. rewrite map_map in H. cbn [f_reason] in H.
    apply in_map_iff in H as (p & <- & Hin).
    apply filter_In in Hin as [Hin _]. eauto.
  - right. now apply reasons_of_when in H as [_ ->].
Qed.

Lemma structure_reason_origin command x :
  In x (reasons_of (structure_findings command)) ->
  In x [ "Command contains multiple operations";
         "Output redirection to system directories";
         "Wildcard usage in potentially destructive command";
         "Piping output to shell execution";
         "Command has malformed syntax" ]
  \/ exists executable,
       x = "Using potentially dangerous executable: " ++ executable.
Proof.
  unfold structure_findings. rewrite !reasons_of_app, !in_app_iff.
  intros [H|[H|[H|[H|H]]]];
    try (apply reasons_of_when in H as [_ ->]; left; cbn; tauto).
  destruct (Shlex.split command) as [[|part0 parts]|e].
  - destruct H.
  - apply reasons_of_when in H as [_ ->]. right. cbn [f_reason]. eauto.
  - destruct H as [<-|[]]. left. cbn. tauto.
Qed.

Lemma reason_sources command context x :
  In x (reasons (verdict command context)) ->
  (exists pattern,
      In (pattern, x) (critical_patterns ++ high_patterns
                       ++ medium_patterns ++ low_patterns)%list
      /\ Re.search pattern (strip (lower command)) = true)
  \/ x = "Safe read-only operation"
  \/ (exists protected,
         In protected protected_paths
         /\ x = "Operating in protected directory: " ++ protected)
  \/ x = "Command may affect configuration files"
  \/ In x [ "Command contains multiple operations";
            "Output redirection to system directories";
            "Wildcard usage in potentially destructive command";
            "Piping output to shell execution";
            "Command has malformed syntax" ]
  \/ exists executable,
       x = "Using potentially dangerous executable: " ++ executable.
Proof.
  unfold verdict. destruct (blank command); [intros []|].
  destruct (first_critical command) as [[p reason]|] eqn:Hc.
  { intros [<-|[]]. left. exists p.
    destruct (first_critical_in _ _ _ Hc) as [Hin Hs].
    split; [|exact Hs]. apply in_app_iff. now left. }
  destruct (level_eqb _ SAFE && leading_token_safe command).
  { intros [<-|[]]. right. now left. }
  cbn [reasons]. unfold later_findings.
  rewrite !reasons_of_app, !in_app_iff.
  intros [H|[H|[H|[H|H]]]].
  - apply tier_reason_origin in H as (p & Hin & Hs). left. exists p.
    split; [|exact Hs]. rewrite !in_app_iff. tauto.
  - apply tier_reason_origin in H as (p & Hin & Hs). left. exists p.
    split; [|exact Hs]. rewrite !in_app_iff. tauto.
  - apply tier_reason_origin in H as (p & Hin & Hs). left. exists p.
    split; [|exact Hs]. rewrite !in_app_iff. tauto.
  - apply context_reason_origin in H. tauto.
  - apply structure_reason_origin in H. tauto.
Qed.

(** X4. Every reason of a verdict is accounted for: it is the reason of
    a rule-table pattern that matches the normalised command, the
    safe-command label, or one of the wordings of the context and
    structural passes. *)
Theorem reasons_are_justified command context r x :
  analyze_command command context = Ok r ->
  In x (reasons r) ->
  (exists pattern,
      In (pattern, x) (critical_patterns ++ high_patterns
                       ++ medium_patterns ++ low_patterns)%list
      /\ Re.search pattern (strip (lower command)) = true)
  \/ x = "Safe read-only operation"
  \/ (exists protected,
         In protected protected_paths
         /\ x = "Operating in protected directory: " ++ protected)
  \/ x = "Command may affect configuration files"
  \/ In x [ "Command contains multiple operations";
            "Output redirection to system directories";
            "Wildcard usage in potentially destructive command";
            "Piping output to shell execution";
            "Command has malformed syntax" ]
  \/ exists executable,
       x = "Using potentially dangerous executable: " ++ executable.
Proof.
  rewrite analyze_command_verdict. intros [= <-]. apply reason_sources.
Qed.

Lemma reasons_are_justified_witness :
  (exists pattern,
      In (pattern, "Recursive deletion")
         (critical_patterns ++ high_patterns
          ++ medium_patterns ++ low_patterns)%list
      /\ Re.search pattern (strip (lower "rm -rf build | sh")) = true)
  \/ "Recursive deletion" = "Safe read-only operation"
  \/ (exists protected,
         In protected protected_paths
         /\ "Recursive deletion"
            = "Operating in protected directory: " ++ protected)
  \/ "Recursive deletion" = "Command may affect configuration files"
  \/ In "Recursive deletion"
        [ "Command contains multiple operations";
          "Output redirection to system directories";
          "Wildcard usage in potentially destructive command";
          "Piping output to shell execution";
          "Command has malformed syntax" ]
  \/ exists executable,
       "Recursive deletion"
       = "Using potentially dangerous executable: " ++ executable.
Proof.
  apply (reasons_are_justified "rm -rf build | sh" None
           (mkRisk HIGH ["Recursive deletion";
                         "Piping output to shell execution"]
              ["Verify the operation is intended and paths are correct";
               "Verify the source and content before execution"])).
  - vm_compute. reflexivity.
  - left. reflexivity.
Defined.

(** X5. Three rules of the HIGH tier can never fire: their patterns ask
    for a capital letter ([-R], [-F]) but are matched against the
    lower-cased command.  No verdict ever carries the reasons of the
    rules for [chmod -R 777 /], [chown -R] and [iptables -F]. *)
Theorem upper_case_rules_are_dead command context r :
  analyze_command command context = Ok r ->
  ~ In "Setting dangerous permissions on root" (reasons r)
  /\ ~ In "Changing ownership of system directories" (reasons r)
  /\ ~ In "Flushing firewall rules" (reasons r).
Proof.
  rewrite analyze_command_verdict. intros [= <-].
  assert (HR : forall pattern,
             pattern_needs "R" pattern = true ->
             Re.search pattern (strip (lower command)) = false).
  { intros p Hp. apply (pattern_needs_no_match "R"); [exact Hp|].
    now apply command_lower_lacks_upper. }
  assert (HF : forall pattern,
             pattern_needs "F" pattern = true ->
             Re.search pattern (strip (lower command)) = false).
  { intros p Hp. apply (pattern_needs_no_match "F"); [exact Hp|].
    now apply command_lower_lacks_upper. }
  repeat split; intros Hin; apply reason_sources in Hin;
    destruct Hin as [(p & Hp & Hs)|[H|[(q & _ & H)|[H|[H|(e & H)]]]]];
    try discriminate H;
    try (cbn in H; intuition discriminate).
  all: cbn [critical_patterns high_patterns medium_patterns low_patterns
            app In] in Hp;
    repeat (destruct Hp as [Hp|Hp]; [try discriminate Hp|]);
    try contradiction;
    injection Hp as <-;
    first [ rewrite HR in Hs by (vm_compute; reflexivity)
          | rewrite HF in Hs by (vm_compute; reflexivity) ];
    discriminate Hs.
Qed.

Lemma upper_case_rules_are_dead_witness :
  ~ In "Setting dangerous permissions on root" []
  /\ ~ In "Changing ownership of system directories" []
  /\ ~ In "Flushing firewall rules" [].
Proof.
  apply (upper_case_rules_are_dead "chmod -R 777 /" None (mkRisk SAFE [] [])).
  vm_compute. reflexivity.
Defined.

(** ** A finding always shows in the verdict of a non-blank command *)

Lemma finding_raises command context f :
  blank command = false ->
  In f (later_findings command context) ->
  exists r,
    analyze_command command context = Ok r
    /\ (value (f_level f) <= value (level r))%Z
    /\ (first_critical command = None -> In (f_reason f) (reasons r)).
Proof.
  intros Hb Hin. exists (verdict command context).
  split; [apply analyze_command_verdict|].
  unfold verdict. rewrite Hb.
  pose proof (max_level_ge _ _ Hin) as Hge.
  destruct (first_critical command) as [[p reason]|].
  - cbn [level]. split; [|discriminate].
    destruct (f_level f); cbn; lia.
  - destruct (level_eqb (max_level (later_findings command context)) SAFE)
      eqn:Hs.
    { apply level_eqb_eq in Hs.
      rewrite (max_level_safe_nil _ (later_findings_risky command context) Hs)
        in Hin. destruct Hin. }
    cbn [andb level reasons]. split; [exact Hge|]. intros _.
    unfold reasons_of. apply in_map. exact Hin.
Qed.

Lemma all_space_lacks c s :
  isspace c = false -> all_space s = true -> lacks c s = true.
Proof.
  intros Hc. induction s as [|a s IH]; [reflexivity|].
  cbn [all_space lacks]. intros H. apply andb_true_iff in H as [Ha Hs].
  rewrite (IH Hs), andb_true_r. apply negb_true_iff.
  destruct (Ascii.eqb a c) eqn:E; [|reflexivity].
  apply Ascii.eqb_eq in E. congruence.
Qed.

(** X6. A command that pipes into [bash], [sh], [zsh] or [fish] is
    never rated below HIGH, in any context. *)
Theorem pipe_to_shell_is_high command context :
  Re.search "\|\s*(bash|sh|zsh|fish)" command = true ->
  exists r,
    analyze_command command context = Ok r
    /\ (value HIGH <= value (level r))%Z.
Proof.
  intros Hs.
  assert (Hb : blank command = false).
  { destruct (blank command) eqn:Hb; [|reflexivity].
    rewrite (pattern_needs_no_match "|" _ command) in Hs;
      [discriminate | vm_compute; reflexivity |].
    apply all_space_lacks; [reflexivity | now apply blank_all_space]. }
  destruct (finding_raises command context
              (mkFinding HIGH "Piping output to shell execution"
                 ["Verify the source and content before execution"]) Hb)
    as (r & Hr & Hl & _).
  - unfold later_findings, structure_findings. rewrite Hs.
    rewrite !in_app_iff. do 4 right. do 3 right. left. now left.
  - exists r. now split.
Qed.

Lemma pipe_to_shell_is_high_witness :
  exists r,
    analyze_command "cat setup.txt |sh" None = Ok r
    /\ (value HIGH <= value (level r))%Z.
Proof.
  apply (pipe_to_shell_is_high "cat setup.txt |sh" None).
  vm_compute. reflexivity.
Defined.

(** ** The context pass *)

Lemma filter_at_most_one {A} (f : A -> bool) (l : list A) :
  List.NoDup l ->
  (forall p q, In p l -> In q l -> f p = true -> f q = true -> p = q) ->
  (length (List.filter f l) <= 1)%nat.
Proof.
  induction l as [|a l IH]; intros Hnd Huniq; [cbn; lia|].
  inversion Hnd as [|? ? Hnotin Hnd']; subst.
  cbn [List.filter]. destruct (f a) eqn:Ha.
  - assert (Hnil : List.filter f l = []).
    { destruct (List.filter f l) as [|q qs] eqn:E; [reflexivity|].
      exfalso. assert (Hq : In q (List.filter f l)) by (rewrite E; now left).
      apply filter_In in Hq as [Hq Hfq].
      apply Hnotin. rewrite (Huniq a q); auto; [now left | now right]. }
    rewrite Hnil. cbn. lia.
  - apply IH; [assumption|]. intros p q Hp Hq. apply Huniq; now right.
Qed.

Lemma protected_paths_NoDup : List.NoDup protected_paths.
Proof.
  unfold protected_paths.
  repeat (constructor; [cbn; intuition discriminate|]). constructor.
Qed.

Lemma protected_matches_at_most_one cwd_path :
  (length (List.filter
             (fun protected => startswith cwd_path protected
                               && negb (String.eqb protected "/"))
             protected_paths) <= 1)%nat.
Proof.
  apply filter_at_most_one; [apply protected_paths_NoDup|].
  intros p q Hp Hq Hfp Hfq.
  apply andb_true_iff in Hfp as [Hsp Hnp].
  apply andb_true_iff in Hfq as [Hsq Hnq].
  apply negb_true_iff, String.eqb_neq in Hnp, Hnq.
  eapply protected_at_most_one; eauto.
Qed.

(** X7. The context pass on its own never rates above MEDIUM and gives
    at most two reasons: at most one protected-directory reason, whatever
    the working directory, and at most one for the configuration files;
    it pairs each reason with one suggestion. *)
Theorem context_pass_bounds command ctx :
  (value (level (_analyze_context command ctx)) <= value MEDIUM)%Z
  /\ (length (reasons (_analyze_context command ctx)) <= 2)%nat
  /\ length (suggestions (_analyze_context command ctx))
     = length (reasons (_analyze_context command ctx)).
Proof.
  rewrite context_summary. unfold summary.
  cbn [level reasons suggestions start app context_findings].
  rewrite level_max_safe_l.
  set (hits := List.filter _ protected_paths).
  assert (Hhits : (length hits <= 1)%nat)
    by apply protected_matches_at_most_one.
  set (b := (contains (lower command) "rm" || contains (lower command) "mv")
            && _).
  repeat split.
  - rewrite max_level_app.
    assert (H1 : forall l : list string,
               (value (max_level
                         (map (fun protected =>
                                 mkFinding MEDIUM
                                   ("Operating in protected directory: "
                                    ++ protected)
                                   ["Be extra careful when modifying system directories"])
                              l)) <= 2)%Z).
    { induction l as [|p l IHl]; cbn [map max_level fold_right f_level];
        [cbn; lia|].
      change (fold_right (fun f m => level_max (f_level f) m) SAFE
                (map (fun protected =>
                        mkFinding MEDIUM
                          ("Operating in protected directory: " ++ protected)
                          ["Be extra careful when modifying system directories"])
                     l))
        with (max_level
                (map (fun protected =>
                        mkFinding MEDIUM
                          ("Operating in protected directory: " ++ protected)
                          ["Be extra careful when modifying system directories"])
                     l)).
      destruct (max_level _); cbn in *; lia. }
    destruct (Shlex.nonempty (cwd ctx)); destruct b; cbn [when];
      try (specialize (H1 hits); destruct (max_level (map _ hits)));
      cbn in *; lia.
  - unfold reasons_of. rewrite map_app, length_app, !length_map.
    destruct (Shlex.nonempty (cwd ctx)); destruct b; cbn [when length];
      rewrite ?length_map; lia.
  - unfold reasons_of, suggestions_of.
    rewrite !map_app, concat_app, !length_app, !length_map.
    f_equal.
    + destruct (Shlex.nonempty (cwd ctx)); [|reflexivity].
      rewrite map_map. cbn [f_suggestions]. rewrite length_map.
      clear. induction hits as [|h hits IH]; [reflexivity|].
      cbn [map concat app length]. now rewrite IH.
    + destruct b; reflexivity.
Qed.

(** X8. In a working directory whose normalised text starts with a
    protected path other than the root, every non-blank command is rated
    MEDIUM or above, read-only ones included, and unless a CRITICAL
    pattern matches the reasons name that protected path.  The test is on
    the text of the path: [/etcetera] counts as inside [/etc]. *)
Theorem protected_directory_escalates command ctx protected :
  blank command = false ->
  Shlex.nonempty (cwd ctx) = true ->
  In protected protected_paths ->
  protected <> "/" ->
  startswith (path_str (cwd ctx)) protected = true ->
  exists r,
    analyze_command command (Some ctx) = Ok r
    /\ (value MEDIUM <= value (level r))%Z
    /\ (first_critical command = None ->
        In ("Operating in protected directory: " ++ protected) (reasons r)).
Proof.
  intros Hb Hcwd Hin Hne Hsw.
  apply (finding_raises command (Some ctx)
           (mkFinding MEDIUM ("Operating in protected directory: " ++ protected)
              ["Be extra careful when modifying system directories"]) Hb).
  unfold later_findings. rewrite !in_app_iff. do 3 right. left.
  cbn [context_findings]. rewrite Hcwd. apply in_app_iff. left.
  apply in_map_iff. exists protected. split; [reflexivity|].
  apply filter_In. split; [exact Hin|].
  rewrite Hsw. cbn [andb]. apply negb_true_iff, String.eqb_neq. exact Hne.
Qed.

Lemma protected_directory_escalates_witness :
  exists r,
    analyze_command "ls -la" (Some (mkContext "/etcetera/" [])) = Ok r
    /\ (value MEDIUM <= value (level r))%Z
    /\ (first_critical "ls -la" = None ->
        In ("Operating in protected directory: " ++ "/etc") (reasons r)).
Proof.
  apply (protected_directory_escalates "ls -la" (mkContext "/etcetera/" [])
                                       "/etc").
  - reflexivity.
  - reflexivity.
  - cbn. tauto.
  - discriminate.
  - reflexivity.
Defined.

(** X9. When the first [shlex] token of a non-blank command, with any
    directory part removed, is one of the flagged executables, the verdict
    is MEDIUM or above, and unless a CRITICAL pattern matches the reasons
    name that executable. *)
Theorem flagged_executable_is_medium command context part0 parts :
  blank command = false ->
  Shlex.split command = Ok (part0 :: parts) ->
  List.last (split_on "/" part0) EmptyString ∈ dangerous_executables ->
  exists r,
    analyze_command command context = Ok r
    /\ (value MEDIUM <= value (level r))%Z
    /\ (first_critical command = None ->
        In ("Using potentially dangerous executable: "
            ++ List.last (split_on "/" part0) EmptyString) (reasons r)).
Proof.
  intros Hb Hsplit Hexe.
  apply (finding_raises command context
           (mkFinding MEDIUM
              ("Using potentially dangerous executable: "
               ++ List.last (split_on "/" part0) EmptyString)
              ["Ensure you understand the implications of this command"]) Hb).
  unfold later_findings, structure_findings. rewrite Hsplit.
  rewrite !in_app_iff. do 4 right. do 4 right.
  rewrite (bool_decide_eq_true_2 _ Hexe). now left.
Qed.

Lemma flagged_executable_is_medium_witness :
  exists r,
    analyze_command "/usr/sbin/fdisk -l '/dev/my disk'" None = Ok r
    /\ (value MEDIUM <= value (level r))%Z
    /\ (first_critical "/usr/sbin/fdisk -l '/dev/my disk'" = None ->
        In ("Using potentially dangerous executable: "
            ++ List.last (split_on "/" "/usr/sbin/fdisk") EmptyString)
           (reasons r)).
Proof.
  apply (flagged_executable_is_medium "/usr/sbin/fdisk -l '/dev/my disk'" None
           "/usr/sbin/fdisk" ["-l"; "/dev/my disk"]).
  - reflexivity.
  - reflexivity.
  - vm_compute. reflexivity.
Defined.

(** ** Safety tips *)

Lemma startswith_shorter s a b :
  startswith s (String a (String b EmptyString)) = true ->
  startswith s (String a EmptyString) = true.
Proof.
  destruct s as [|c s]; cbn [startswith]; [discriminate|].
  intros H. apply andb_true_iff in H as [-> _]. now destruct s.
Qed.

Lemma contains_shorter s a b :
  contains s (String a (String b EmptyString)) = true ->
  contains s (String a EmptyString) = true.
Proof.
  induction s as [|c s IH]; cbn [contains].
  - rewrite !orb_false_r. apply startswith_shorter.
  - intros H. apply orb_true_iff in H as [H|H].
    + now rewrite (startswith_shorter _ _ _ H).
    + rewrite (IH H). apply orb_true_r.
Qed.

(** X10. [get_safety_tips] gives three tips when the lower-cased
    command contains [rm], three when it contains [sudo] and two when the
    command contains [>], in that order; it gives none exactly when the
    command contains none of the three. *)
Theorem safety_tips_count command :
  length (get_safety_tips command)
  = ((if contains (lower command) "rm" then 3 else 0)
     + (if contains (lower command) "sudo" then 3 else 0)
     + (if contains command ">" then 2 else 0))%nat
  /\ (get_safety_tips command = []
      <-> contains (lower command) "rm" = false
          /\ contains (lower command) "sudo" = false
          /\ contains command ">" = false).
Proof.
  unfold get_safety_tips. cbn [existsb].
  assert (Hgt : contains command ">" || (contains command ">>" || false)
                = contains command ">").
  { rewrite orb_false_r. destruct (contains command ">") eqn:E1;
      [reflexivity|]. cbn [orb].
    destruct (contains command ">>") eqn:E2; [|reflexivity].
    apply contains_shorter in E2. congruence. }
  rewrite Hgt.
  destruct (contains (lower command) "rm"),
           (contains (lower command) "sudo"),
           (contains command ">"); cbn; (split; [reflexivity|]);
    split; try discriminate; intuition discriminate.
Qed.

(** * Further properties of the session *)

Lemma natural_protocol_run
    always_confirm user ctx shell user_input response risk :
  translated response ->
  analyze_command (command response) ctx = Ok risk ->
  let r := _handle_natural_language always_confirm user ctx shell
             user_input response fresh in
  let ps := natural_prompts always_confirm (level risk) in
  prompts (log (snd r)) = shown user 0 ps
  /\ executed (log (snd r)) = agreed user 0 ps
  /\ prompts (before_execute (log (snd r))) = prompts (log (snd r)).
Proof.
  intros [Herr Hcmd] Hrisk.
  destruct risk as [lvl rs ss].
  destruct response as [cmd expl err]. cbn [error command explanation] in *.
  unfold _handle_natural_language. cbn [error command explanation level].
  assert (Hfin : forall c, finish_natural shell user_input
                             (mkResponse cmd expl err) c
                           = (Ok true,
                              mkConsole (asked c)
                                (log c ++ tips_log cmd
                                 ++ outcome_log shell cmd user_input NATURAL)))
    by (intros c; apply finish_natural_run).
  generalize dependent (finish_natural shell user_input
                          (mkResponse cmd expl err)).
  intros run Hfin.
  destruct (outcome_log_runs shell cmd user_input NATURAL) as [Hop Hoe].
  destruct (tips_log_quiet cmd) as [Htp Hte].
  unfold executed in *.
  destruct Herr as [-> | ->]; rewrite Hcmd; cbn [negb];
    unfold seq at 1; unfold analyze_command_safety, lift; rewrite Hrisk;
    destruct lvl, always_confirm;
    unfold seq, emit, print, confirm_or_cancel, Confirm_ask, ret, fresh,
      natural_prompts, shown, agreed, answer;
    cbn;
    destruct (user 0) as [[|]|]; cbn;
    try (destruct (user 1) as [[|]|]; cbn);
    rewrite ?Hfin;
    cbn [app prompts before_execute is_execute existsb orb fst snd log asked];
    rewrite ?before_execute_tips, ?prompts_app, ?existsb_app,
      ?Htp, ?Hop, ?Hte, ?Hoe;
    repeat split; reflexivity.
Qed.

(** X11. The natural-language flow follows one protocol at every level:
    it asks the prompts of the level in turn (two defaulting to decline
    for CRITICAL, one defaulting to decline for HIGH, one defaulting to
    accept for MEDIUM and LOW, and for SAFE one defaulting to accept only
    under [always_confirm]), stops at the first negative answer, asks
    every prompt before anything runs, and executes exactly when all of
    them were answered positively. *)
Theorem natural_protocol
    always_confirm user ctx shell user_input response risk :
  translated response ->
  analyze_command (command response) ctx = Ok risk ->
  let r := _handle_natural_language always_confirm user ctx shell
             user_input response fresh in
  let ps := natural_prompts always_confirm (level risk) in
  prompts (log (snd r)) = shown user 0 ps
  /\ executed (log (snd r)) = agreed user 0 ps
  /\ prompts (before_execute (log (snd r))) = prompts (log (snd r)).
Proof. apply natural_protocol_run. Qed.

Lemma natural_protocol_witness :
  let user := fun _ : nat => Some true in
  let shell := fun _ : string => (true, EmptyString, EmptyString) in
  let r := _handle_natural_language true user None shell "free space"
             (mkResponse "df -h" None None) fresh in
  let ps := natural_prompts true SAFE in
  prompts (log (snd r)) = shown user 0 ps
  /\ executed (log (snd r)) = agreed user 0 ps
  /\ prompts (before_execute (log (snd r))) = prompts (log (snd r)).
Proof.
  apply (natural_protocol true (fun _ : nat => Some true) None
           (fun _ : string => (true, EmptyString, EmptyString)) "free space"
           (mkResponse "df -h" None None)
           (mkRisk SAFE ["Safe read-only operation"] [])).
  - split; [left; reflexivity | reflexivity].
  - vm_compute. reflexivity.
Defined.

(** X12. A user who only presses Enter at every prompt of the
    natural-language flow runs the translated command when its verdict is
    MEDIUM, LOW or SAFE, and never when it is HIGH or CRITICAL. *)
Theorem enter_runs_up_to_medium
    always_confirm ctx shell user_input response risk :
  translated response ->
  analyze_command (command response) ctx = Ok risk ->
  executed (log (snd (_handle_natural_language always_confirm
                        (fun _ => None) ctx shell user_input response fresh)))
  = match level risk with
    | HIGH | CRITICAL => false
    | _ => true
    end.
Proof.
  intros Htr Hrisk.
  destruct (natural_protocol_run always_confirm (fun _ => None) ctx shell
              user_input response risk Htr Hrisk) as (_ & He & _).
  rewrite He. destruct (level risk), always_confirm; reflexivity.
Qed.

Lemma enter_runs_up_to_medium_witness :
  executed (log (snd (_handle_natural_language false (fun _ => None) None
                        (fun _ : string => (true, EmptyString, EmptyString))
                        "clean up"
                        (mkResponse "sudo rm -rf build" None None) fresh)))
  = match level (mkRisk HIGH ["Recursive deletion with sudo privileges";
                               "Recursive deletion"]
                   ["Verify the operation is intended and paths are correct";
                    "Double-check the target path and consider backing up first"])
    with
    | HIGH | CRITICAL => false
    | _ => true
    end.
Proof.
  apply (enter_runs_up_to_medium false None
           (fun _ : string => (true, EmptyString, EmptyString)) "clean up"
           (mkResponse "sudo rm -rf build" None None)).
  - split; [left; reflexivity | reflexivity].
  - vm_compute. reflexivity.
Defined.

(** X13. When the translation reports an error, or yields a blank
    command, the natural-language flow asks nothing and executes
    nothing, whatever command the response holds. *)
Theorem failed_translation_runs_nothing
    always_confirm user ctx shell user_input response :
  (exists c e, error response = Some (String c e))
  \/ blank (command response) = true ->
  let r := _handle_natural_language always_confirm user ctx shell
             user_input response fresh in
  prompts (log (snd r)) = [] /\ executed (log (snd r)) = false.
Proof.
  intros H. unfold _handle_natural_language.
  destruct H as [(c & e & ->) | Hb].
  - cbn. split; reflexivity.
  - unfold blank in Hb. rewrite Hb.
    destruct (error response) as [[|c e]|]; cbn; split; reflexivity.
Qed.

Lemma failed_translation_runs_nothing_witness :
  let r := _handle_natural_language false (fun _ => Some true) None
             (fun _ : string => (true, EmptyString, EmptyString))
             "wipe the disk"
             (mkResponse "rm -rf /" None (Some "model unavailable")) fresh in
  prompts (log (snd r)) = [] /\ executed (log (snd r)) = false.
Proof.
  apply (failed_translation_runs_nothing false (fun _ => Some true) None
           (fun _ : string => (true, EmptyString, EmptyString))
           "wipe the disk"
           (mkResponse "rm -rf /" None (Some "model unavailable"))).
  left. eexists _, _. reflexivity.
Defined.

(** X14. The direct-command flow never shows a confirmation prompt.
    It hands the command to the shell exactly when [safe_mode] is off or
    the verdict is SAFE; otherwise (safe mode on, verdict LOW or above)
    it stops on the [TypeError] of the level comparison before printing
    anything. *)
Theorem direct_never_confirms safe_mode user ctx shell command :
  exists risk,
    analyze_command command ctx = Ok risk
    /\ let r := _handle_direct_command safe_mode user ctx shell command
                  fresh in
       prompts (log (snd r)) = []
       /\ executed (log (snd r))
          = (negb safe_mode || level_eqb (level risk) SAFE)
       /\ if negb safe_mode || level_eqb (level risk) SAFE
          then True
          else exists msg,
                 fst r = Raise (TypeError msg) /\ log (snd r) = [].
Proof.
  exists (verdict command ctx).
  pose proof (analyze_command_verdict command ctx) as Hrisk.
  split; [exact Hrisk|].
  destruct (outcome_log_runs shell command command DIRECT) as [Hop Hoe].
  cbv zeta. destruct safe_mode; cbn [negb orb].
  - destruct (level_eqb (level (verdict command ctx)) SAFE) eqn:Hl.
    + assert (Hrun : _handle_direct_command true user ctx shell command fresh
                     = finish_direct shell command fresh).
      { unfold _handle_direct_command. unfold seq at 1.
        unfold analyze_command_safety, lift. rewrite Hrisk.
        apply level_eqb_eq in Hl. unfold requires_confirmation.
        rewrite Hl. reflexivity. }
      rewrite Hrun, finish_direct_run. cbn [fst snd log fresh app].
      repeat split; assumption.
    + assert (Hreq : requires_confirmation (verdict command ctx) = true).
      { unfold requires_confirmation.
        destruct (level (verdict command ctx)); try reflexivity.
        discriminate Hl. }
      destruct (direct_safe_mode_raises user ctx shell command _ Hrisk Hreq)
        as (msg & Hrun).
      rewrite Hrun. cbn [fst snd log fresh]. repeat split. eauto.
  - rewrite (direct_unsafe_run user ctx shell command _ Hrisk).
    cbn [fst snd log]. repeat split; assumption.
Qed.

(** ** Routing the input *)

Lemma rstrip_idem s : rstrip (rstrip s) = rstrip s.
Proof.
  induction s as [|c s IH]; [reflexivity|].
  cbn [rstrip]. destruct (rstrip s) as [|a t] eqn:E.
  - destruct (isspace c) eqn:Hc; [reflexivity|].
    cbn [rstrip]. now rewrite Hc.
  - cbn [rstrip] in *. rewrite IH. reflexivity.
Qed.

Lemma lstrip_head s :
  lstrip s = EmptyString
  \/ exists c t, lstrip s = String c t /\ isspace c = false.
Proof.
  induction s as [|c s IH]; [now left|].
  cbn [lstrip]. destruct (isspace c) eqn:Hc; [exact IH|].
  right. eauto.
Qed.

Lemma lstrip_rstrip_head c t :
  isspace c = false ->
  lstrip (rstrip (String c t)) = rstrip (String c t).
Proof.
  intros Hc. cbn [rstrip]. destruct (rstrip t); rewrite ?Hc;
    cbn [lstrip]; now rewrite Hc.
Qed.

(** [str.strip] is idempotent. *)
Lemma strip_idem s : strip (strip s) = strip s.
Proof.
  unfold strip. destruct (lstrip_head s) as [->|(c & t & -> & Hc)].
  - reflexivity.
  - rewrite (lstrip_rstrip_head _ _ Hc). apply rstrip_idem.
Qed.


Lemma rstrip_space_empty s :
  all_space (rstrip s) = true -> rstrip s = EmptyString.
Proof.
  induction s as [|c s IH]; [reflexivity|].
  cbn [rstrip]. destruct (rstrip s) as [|a t].
  - destruct (isspace c) eqn:Hc; [reflexivity|].
    cbn [all_space]. rewrite Hc. discriminate.
  - cbn [all_space]. intros H. apply andb_true_iff in H as [_ H].
    specialize (IH H). discriminate.
Qed.

Lemma strip_space_empty s :
  all_space (strip s) = true -> strip s = EmptyString.
Proof. apply rstrip_space_empty. Qed.

Lemma all_space_strip s : all_space (strip s) = all_space s.
Proof.
  destruct (all_space s) eqn:Hs.
  - unfold strip. now rewrite (lstrip_all_space _ Hs).
  - destruct (all_space (strip s)) eqn:Ht; [|reflexivity].
    apply strip_space_empty in Ht.
    assert (Hb : blank s = true) by (unfold blank; now rewrite Ht).
    apply blank_all_space in Hb. congruence.
Qed.

Lemma nonempty_strip s : Shlex.nonempty (strip s) = negb (all_space s).
Proof.
  destruct (all_space s) eqn:Hs.
  - unfold strip. now rewrite (lstrip_all_space _ Hs).
  - destruct (strip s) eqn:E; [|reflexivity].
    assert (Hb : blank s = true) by (unfold blank; now rewrite E).
    apply blank_all_space in Hb. congruence.
Qed.

Lemma split_from_words s : forall word,
  Shlex.nonempty word = true \/ all_space s = false ->
  split_from word s <> [].
Proof.
  induction s as [|c s IH]; intros word H; cbn [split_from].
  - destruct H as [H|H]; [now rewrite H | discriminate].
  - destruct (isspace c) eqn:Hc.
    + destruct (Shlex.nonempty word) eqn:Hw; [discriminate|].
      apply IH. right. destruct H as [H|H]; [discriminate|].
      cbn [all_space] in H. now rewrite Hc in H.
    + apply IH. left. now destruct word.
Qed.

Lemma split_from_space s : forall word,
  all_space s = true ->
  split_from word s = if Shlex.nonempty word then [word] else [].
Proof.
  induction s as [|c s IH]; intros word H; [reflexivity|].
  cbn [all_space] in H. apply andb_true_iff in H as [Hc Hs].
  cbn [split_from]. rewrite Hc, (IH _ Hs). reflexivity.
Qed.

(** X15. [detect_command_type] raises [IndexError] exactly on an input
    made of white space only; on every other input it answers ["direct"]
    or ["natural"]. *)
Theorem detect_fails_on_blank_only ai_mode user_input :
  (all_space user_input = true ->
   detect_command_type ai_mode user_input
   = Failed (IndexError "list index out of range"))
  /\ (all_space user_input = false ->
      detect_command_type ai_mode user_input = Done "direct"
      \/ detect_command_type ai_mode user_input = Done "natural").
Proof.
  unfold detect_command_type, split_ws. split; intros H.
  - rewrite split_from_space by now rewrite all_space_strip. reflexivity.
  - destruct (split_from EmptyString (strip user_input)) as [|w ws] eqn:E.
    { exfalso. apply (split_from_words (strip user_input) EmptyString);
        [right; now rewrite all_space_strip | exact E]. }
    destruct (mem w shell_commands); [now left|].
    destruct (existsb _ natural_language_indicators); [now right|].
    destruct (_ && _); [now left|].
    destruct ai_mode; [now right | now left].
Qed.

Lemma detect_fails_on_blank_only_witness :
  detect_command_type true "   "
  = Failed (IndexError "list index out of range")
  /\ (detect_command_type true "wget http://x/y.sh" = Done "direct"
      \/ detect_command_type true "wget http://x/y.sh" = Done "natural").
Proof.
  split.
  - apply (proj1 (detect_fails_on_blank_only true "   ")). reflexivity.
  - apply (proj2 (detect_fails_on_blank_only true "wget http://x/y.sh")).
    reflexivity.
Defined.

Lemma detect_done ai_mode user_input :
  Shlex.nonempty (strip user_input) = true ->
  exists kind, detect_command_type ai_mode (strip user_input) = Done kind.
Proof.
  intros Hne. rewrite nonempty_strip in Hne. apply negb_true_iff in Hne.
  destruct (proj2 (detect_fails_on_blank_only ai_mode (strip user_input)))
    as [H|H]; [now rewrite all_space_strip | eauto | eauto].
Qed.

(** X16. [process_user_input] ignores an input made of white space
    only (it returns [True] and leaves the console alone) and never ends
    in the [IndexError] of [detect_command_type], because it strips the
    input and returns early before routing. *)
Theorem routing_never_index_error
    always_confirm safe_mode user ctx shell ai_mode translate special
    user_input c :
  (all_space user_input = true ->
   process_user_input always_confirm safe_mode user ctx shell ai_mode
                      translate special user_input c = (Done true, c))
  /\ forall msg,
      fst (process_user_input always_confirm safe_mode user ctx shell ai_mode
                              translate special user_input c)
      <> Failed (IndexError msg).
Proof.
  unfold process_user_input. split.
  - intros H. rewrite nonempty_strip, H. reflexivity.
  - intros msg.
    destruct (Shlex.nonempty (strip user_input)) eqn:Hne; cbn [negb];
      [|discriminate].
    assert (Hh : forall r, fst (handled r) <> Failed (IndexError msg))
      by (intros [[b|e] c']; discriminate).
    destruct (startswith (strip user_input) "."); [apply Hh|].
    destruct (detect_done ai_mode user_input Hne) as (kind & ->).
    destruct (String.eqb kind "natural" && ai_mode); apply Hh.
Qed.

Lemma routing_never_index_error_witness :
  process_user_input false true (fun _ => None) None
    (fun _ : string => (true, EmptyString, EmptyString)) true
    (fun _ => mkResponse "ls" None None) (fun _ => ret true)
    "  " fresh = (Done true, fresh).
Proof.
  apply (proj1 (routing_never_index_error false true (fun _ => None) None
                  (fun _ : string => (true, EmptyString, EmptyString)) true
                  (fun _ => mkResponse "ls" None None) (fun _ => ret true)
                  "  " fresh)).
  reflexivity.
Defined.

(** X17. With the AI mode off, no input is ever translated: every
    non-blank input that is not a dot command goes, stripped, to the
    direct-command handler. *)
Theorem direct_mode_never_translates
    always_confirm safe_mode user ctx shell translate special user_input c :
  all_space user_input = false ->
  startswith (strip user_input) "." = false ->
  process_user_input always_confirm safe_mode user ctx shell false
                     translate special user_input c
  = handled (_handle_direct_command safe_mode user ctx shell
               (strip user_input) c).
Proof.
  intros Hns Hdot. unfold process_user_input.
  rewrite nonempty_strip, Hns, Hdot. cbn [negb].
  assert (Hne : Shlex.nonempty (strip user_input) = true)
    by now rewrite nonempty_strip, Hns.
  destruct (detect_done false user_input Hne) as (kind & ->).
  now rewrite andb_false_r.
Qed.

Lemma direct_mode_never_translates_witness :
  process_user_input false false (fun _ => None) None
    (fun _ : string => (true, EmptyString, EmptyString)) false
    (fun _ => mkResponse "rm -rf /" None None) (fun _ => ret true)
    " please show me the files " fresh
  = handled (_handle_direct_command false (fun _ => None) None
               (fun _ : string => (true, EmptyString, EmptyString))
               (strip " please show me the files ") fresh).
Proof.
  apply (direct_mode_never_translates false false (fun _ => None) None
           (fun _ : string => (true, EmptyString, EmptyString))
           (fun _ => mkResponse "rm -rf /" None None) (fun _ => ret true)
           " please show me the files " fresh); reflexivity.
Defined.

(** X18. In safe mode, an input whose first word is one of the listed
    shell commands and whose verdict asks for confirmation is neither
    confirmed nor run, in either mode: it is routed to the direct handler,
    which stops on [TypeError] with the console untouched. *)
Theorem typed_shell_command_stops
    always_confirm user ctx shell ai_mode translate special user_input
    word0 words risk :
  startswith (strip user_input) "." = false ->
  split_ws (strip user_input) = word0 :: words ->
  mem word0 shell_commands = true ->
  analyze_command (strip user_input) ctx = Ok risk ->
  requires_confirmation risk = true ->
  exists msg,
    process_user_input always_confirm true user ctx shell ai_mode
                       translate special user_input fresh
    = (Failed (Exn (TypeError msg)), fresh).
Proof.
  intros Hdot Hsplit Hmem Hrisk Hreq. unfold process_user_input.
  assert (Hne : Shlex.nonempty (strip user_input) = true).
  { rewrite nonempty_strip. apply negb_true_iff.
    destruct (all_space user_input) eqn:Hs; [|reflexivity].
    unfold split_ws in Hsplit.
    rewrite split_from_space in Hsplit by now rewrite !all_space_strip.
    discriminate. }
  rewrite Hne, Hdot. cbn [negb].
  unfold detect_command_type. rewrite strip_idem, Hsplit, Hmem.
  cbn [String.eqb Ascii.eqb andb].
  change (String.eqb "direct" "natural") with false. cbn [andb].
  destruct (direct_safe_mode_raises user ctx shell (strip user_input) risk
              Hrisk Hreq) as (msg & ->).
  exists msg. reflexivity.
Qed.

Lemma typed_shell_command_stops_witness :
  exists msg,
    process_user_input false true (fun _ => Some true) None
      (fun _ : string => (true, EmptyString, EmptyString)) true
      (fun _ => mkResponse "ls" None None) (fun _ => ret true)
      "rm notes.txt" fresh
    = (Failed (Exn (TypeError msg)), fresh).
Proof.
  apply (typed_shell_command_stops false (fun _ => Some true) None
           (fun _ : string => (true, EmptyString, EmptyString)) true
           (fun _ => mkResponse "ls" None None) (fun _ => ret true)
           "rm notes.txt" "rm" ["notes.txt"]
           (mkRisk LOW ["Deleting files"] ["Review the operation carefully"])).
  - reflexivity.
  - reflexivity.
  - reflexivity.
  - vm_compute. reflexivity.
  - reflexivity.
Defined.

(** ** The in-memory history *)

(** X19. After an entry is recorded, the in-memory history holds at
    most 50 entries, ends with the new entry, and is the tail of the old
    history followed by the new entry; when recording fails, the history
    is unchanged and one warning is printed. *)
Theorem history_keeps_last_50 failure history user_input command success :
  let r := _record_command_history failure history user_input command
                                   success in
  match failure with
  | None =>
      (length (fst r) <= 50)%nat
      /\ List.last (fst r) (EmptyString, EmptyString, false)
         = (user_input, command, success)
      /\ (exists k, fst r
                    = skipn k (history ++ [(user_input, command, success)]))
      /\ ((length history < 50)%nat ->
          fst r = (history ++ [(user_input, command, success)])%list)
      /\ snd r = []
  | Some e =>
      fst r = history /\ exists line, snd r = [Print line]
  end.
Proof.
  cbv zeta. unfold _record_command_history.
  destruct failure as [e|]; [cbn; eauto|].
  set (h := (history ++ [(user_input, command, success)])%list).
  assert (Hlen : length h = S (length history))
    by (unfold h; rewrite length_app; cbn; lia).
  destruct (50 <? length h)%nat eqn:Hlt; cbn [fst snd].
  - apply Nat.ltb_lt in Hlt. repeat split.
    + rewrite length_skipn. lia.
    + assert (E : (length h - 50 - length history)%nat = 0%nat) by lia.
      unfold h in *. rewrite skipn_app, E.
      cbn [skipn]. apply last_last.
    + eauto.
    + lia.
  - apply Nat.ltb_ge in Hlt. repeat split.
    + exact Hlt.
    + unfold h. apply last_last.
    + exists 0%nat. reflexivity.
Qed.

(** ** The safe-command label *)

Lemma later_reason_not_label command context :
  ~ In "Safe read-only operation"
       (reasons_of (later_findings command context)).
Proof.
  unfold later_findings. rewrite !reasons_of_app, !in_app_iff.
  intros [H|[H|[H|[H|H]]]].
  - apply tier_reason_origin in H as (p & Hin & _).
    cbn [high_patterns In] in Hin.
    repeat (destruct Hin as [Hin|Hin]; [discriminate Hin|]). exact Hin.
  - apply tier_reason_origin in H as (p & Hin & _).
    cbn [medium_patterns In] in Hin.
    repeat (destruct Hin as [Hin|Hin]; [discriminate Hin|]). exact Hin.
  - apply tier_reason_origin in H as (p & Hin & _).
    cbn [low_patterns In] in Hin.
    repeat (destruct Hin as [Hin|Hin]; [discriminate Hin|]). exact Hin.
  - apply context_reason_origin in H as [(p & _ & H)|H]; discriminate H.
  - apply structure_reason_origin in H as [H|(e & H)]; [|discriminate H].
    cbn in H. intuition discriminate.
Qed.

(** X20. The verdict carries the label ["Safe read-only operation"] as
    its reasons exactly when the command is not blank, no tier or pass
    reports any finding, and the leading [shlex] token is a safe prefix:
    the label never stands beside, or in place of, a finding. *)
Theorem safe_label_means_no_finding command context r :
  analyze_command command context = Ok r ->
  (reasons r = ["Safe read-only operation"]
   <-> blank command = false
       /\ all_findings command context = []
       /\ leading_token_safe command = true).
Proof.
  rewrite analyze_command_verdict. intros [= <-]. unfold verdict, all_findings.
  destruct (blank command) eqn:Hb.
  { cbn [reasons]. split; [discriminate | intros (H & _); discriminate]. }
  destruct (first_critical command) as [[p reason]|] eqn:Hc.
  { cbn [reasons]. split.
    - intros [= ->]. exfalso.
      destruct (first_critical_in _ _ _ Hc) as [Hin _].
      cbn [critical_patterns In] in Hin.
      repeat (destruct Hin as [Hin|Hin]; [discriminate Hin|]). exact Hin.
    - intros (_ & Hnil & _). apply app_eq_nil in Hnil as [Hnil _].
      apply first_critical_some in Hc. rewrite Hnil in Hc. discriminate. }
  rewrite (first_critical_none _ Hc). cbn [app].
  destruct (level_eqb (max_level (later_findings command context)) SAFE)
    eqn:Hs.
  - apply level_eqb_eq in Hs.
    pose proof (max_level_safe_nil _ (later_findings_risky command context) Hs)
      as Hnil.
    rewrite Hnil. destruct (leading_token_safe command); cbn [andb reasons].
    + split; [now intros _ | reflexivity].
    + unfold reasons_of. cbn [map].
      split; [discriminate | intros (_ & _ & H); discriminate].
  - cbn [andb reasons]. split.
    + intros H. exfalso.
      apply (later_reason_not_label command context). rewrite H. now left.
    + intros (_ & Hnil & _). rewrite Hnil in Hs. discriminate.
Qed.

Lemma safe_label_means_no_finding_witness :
  reasons (mkRisk SAFE ["Safe read-only operation"] [])
  = ["Safe read-only operation"]
  <-> blank "grep -r TODO src" = false
      /\ all_findings "grep -r TODO src" None = []
      /\ leading_token_safe "grep -r TODO src" = true.
Proof.
  apply (safe_label_means_no_finding "grep -r TODO src" None
           (mkRisk SAFE ["Safe read-only operation"] [])).
  vm_compute. reflexivity.
Defined.

(** ** The context of a session *)

(** X21. The context a session builds lists at most ten files and no
    hidden one; so in a session the configuration-file reason of the
    context pass is always due to a listed file with a configuration
    suffix, never to a dot file. *)
Theorem session_context_hides_dot_files directory listing command :
  let ctx := _get_basic_context directory listing in
  cwd ctx = directory
  /\ (length (files ctx) <= 10)%nat
  /\ Forall (fun f => startswith f "." = false) (files ctx)
  /\ (In "Command may affect configuration files"
         (reasons (_analyze_context command ctx)) ->
      exists f, In f (files ctx)
                /\ existsb (endswith f) config_suffixes = true).
Proof.
  cbv zeta.
  assert (Hvis : Forall (fun f => startswith f "." = false)
                        (files (_get_basic_context directory listing))).
  { unfold _get_basic_context. cbn [files].
    destruct listing as [names|]; [|constructor].
    apply List.Forall_forall. intros f Hf.
    assert (Hin : In f (List.filter (fun name => negb (startswith name "."))
                                    names)).
    { clear -Hf. revert Hf. generalize 10%nat as n.
      generalize (List.filter (fun name => negb (startswith name ".")) names)
        as l.
      induction l as [|a l IH]; intros [|n]; cbn; try tauto.
      intros [->|H]; [now left | right; eapply IH; eauto]. }
    apply filter_In in Hin as [_ Hn]. now apply negb_true_iff in Hn. }
  repeat split.
  - unfold _get_basic_context. cbn [files].
    destruct listing as [names|]; [|cbn; lia].
    rewrite length_firstn. lia.
  - exact Hvis.
  - rewrite context_summary. unfold summary.
    cbn [reasons start app context_findings].
    rewrite reasons_of_app, in_app_iff. intros [H|H].
    + exfalso. destruct (Shlex.nonempty _); [|destruct H].
      unfold reasons_of in H. rewrite map_map in H. cbn [f_reason] in H.
      apply in_map_iff in H as (p & Hp & _). discriminate Hp.
    + apply reasons_of_when in H as [Hb _].
      apply andb_true_iff in Hb as [_ Hex].
      apply existsb_exists in Hex as (f & Hin & Hf). exists f.
      split; [exact Hin|].
      rewrite List.Forall_forall in Hvis. rewrite (Hvis f Hin) in Hf.
      exact Hf.
Qed.

Lemma session_context_hides_dot_files_witness :
  let ctx := _get_basic_context "/home/user/app"
               (Some [".env"; ".git"; "main.py"; "settings.yaml"]) in
  cwd ctx = "/home/user/app"
  /\ (length (files ctx) <= 10)%nat
  /\ Forall (fun f => startswith f "." = false) (files ctx)
  /\ (In "Command may affect configuration files"
         (reasons (_analyze_context "rm main.py" ctx)) ->
      exists f, In f (files ctx)
                /\ existsb (endswith f) config_suffixes = true).
Proof.
  apply (session_context_hides_dot_files "/home/user/app"
           (Some [".env"; ".git"; "main.py"; "settings.yaml"]) "rm main.py").
Defined.

(** ** Cleaning the answer of the language model *)





(** ** Recursive deletion under any absolute path *)

Lemma startswith_split s : forall lit,
  startswith s lit = true -> exists post, s = lit ++ post.
Proof.
  induction s as [|c s IH]; intros [|a lit]; cbn [startswith];
    try discriminate; try (now eexists).
  intros H. apply andb_true_iff in H as [Ha Hs].
  apply Ascii.eqb_eq in Ha. subst a.
  destruct (IH _ Hs) as (post & ->). now exists post.
Qed.

Lemma contains_split s lit :
  contains s lit = true -> exists pre post, s = pre ++ lit ++ post.
Proof.
  induction s as [|c s IH]; cbn [contains]; intros H.
  - rewrite orb_false_r in H. apply startswith_split in H as (post & ->).
    now exists EmptyString, post.
  - apply orb_true_iff in H as [H|H].
    + apply startswith_split in H as (post & ->).
      now exists EmptyString, post.
    + destruct (IH H) as (pre & post & ->).
      now exists (String c pre), post.
Qed.

Lemma search_re_skips r pre rest :
  Re.match_prefix r rest = true -> Re.search_re r (pre ++ rest) = true.
Proof.
  intros H. induction pre as [|c pre IH].
  - change (EmptyString ++ rest) with rest.
    destruct rest; cbn [Re.search_re]; now rewrite H.
  - change (String c pre ++ rest) with (String c (pre ++ rest)).
    cbn [Re.search_re]. rewrite IH. apply orb_true_r.
Qed.

Lemma root_pattern_matches pre post :
  Re.search "rm\s+-rf\s+/" (pre ++ "rm -rf /" ++ post) = true.
Proof.
  unfold Re.search. set (compiled := Re.compile "rm\s+-rf\s+/").
  vm_compute in compiled. subst compiled. cbv iota beta.
  apply search_re_skips. destruct post; vm_compute; reflexivity.
Qed.

Lemma contains_nonempty s lit a :
  contains s (String a lit) = true -> Shlex.nonempty s = true.
Proof. destruct s; [discriminate | reflexivity]. Qed.

Lemma contains_lstrip s a lit :
  isspace a = false ->
  contains s (String a lit) = true -> contains (lstrip s) (String a lit) = true.
Proof.
  intros Ha. induction s as [|c s IH]; [discriminate|].
  cbn [lstrip]. destruct (isspace c) eqn:Hc; [|tauto].
  cbn [contains startswith]. intros H. apply orb_true_iff in H as [H|H].
  - apply andb_true_iff in H as [E _]. apply Ascii.eqb_eq in E. congruence.
  - now apply IH.
Qed.

Lemma startswith_rstrip lit : forall s,
  Shlex.nonempty lit = true -> rstrip lit = lit ->
  startswith s lit = true -> startswith (rstrip s) lit = true.
Proof.
  induction lit as [|a lit IH]; intros s Hne Hr Hs; [discriminate|].
  destruct s as [|c s]; [discriminate|].
  cbn [startswith] in Hs. apply andb_true_iff in Hs as [E Hs].
  cbn [rstrip] in Hr. destruct lit as [|b lit].
  - cbn [rstrip] in Hr. destruct (isspace a) eqn:Ha; [discriminate|].
    apply Ascii.eqb_eq in E. subst c.
    cbn [rstrip]. destruct (rstrip s); rewrite ?Ha; cbn [startswith];
      now rewrite Ascii.eqb_refl.
  - assert (Hr' : rstrip (String b lit) = String b lit).
    { destruct (rstrip (String b lit)) eqn:Eb.
      - destruct (isspace a); discriminate.
      - congruence. }
    specialize (IH s eq_refl Hr' Hs).
    cbn [rstrip]. destruct (rstrip s) as [|d t] eqn:Ed; [discriminate|].
    cbn [startswith]. rewrite E. exact IH.
Qed.

Lemma contains_rstrip lit s :
  Shlex.nonempty lit = true -> rstrip lit = lit ->
  contains s lit = true -> contains (rstrip s) lit = true.
Proof.
  intros Hne Hr. induction s as [|c s IH]; cbn [contains]; intros H.
  - rewrite orb_false_r in H. destruct lit; discriminate.
  - apply orb_true_iff in H as [H|H].
    + apply (startswith_rstrip _ _ Hne Hr) in H.
      destruct (rstrip (String c s)); cbn [contains]; now rewrite H.
    + specialize (IH H). cbn [rstrip].
      destruct (rstrip s) as [|d t] eqn:Ed.
      { destruct lit; [discriminate|]. discriminate IH. }
      cbn [contains]. cbn [contains] in IH. rewrite IH. apply orb_true_r.
Qed.

(** X23. A command that holds the text [rm -rf /] anywhere after
    lower-casing, whatever follows the slash, is answered CRITICAL with
    the single reason ["Attempting to delete root filesystem"]: the
    pattern is not anchored, so a recursive deletion under any absolute
    path is reported as a deletion of the root file system, and no other
    reason is given. *)
Theorem absolute_rm_is_reported_as_root command context :
  contains (lower command) "rm -rf /" = true ->
  analyze_command command context
  = Ok (mkRisk CRITICAL ["Attempting to delete root filesystem"]
          [ "This command can cause irreversible system damage";
            "Consider alternatives or seek expert help" ]).
Proof.
  intros H.
  assert (Hs : contains (strip (lower command)) "rm -rf /" = true).
  { unfold strip. apply contains_rstrip; [reflexivity | reflexivity |].
    apply contains_lstrip; [reflexivity | exact H]. }
  rewrite analyze_command_verdict. unfold verdict.
  rewrite blank_by_lower, (contains_nonempty _ _ _ Hs). cbn [negb].
  unfold first_critical.
  destruct (contains_split _ _ Hs) as (pre & post & ->).
  cbn [critical_patterns find fst]. rewrite root_pattern_matches.
  reflexivity.
Qed.

Lemma absolute_rm_is_reported_as_root_witness :
  analyze_command "cd /srv; RM -rf /srv/cache/old" None
  = Ok (mkRisk CRITICAL ["Attempting to delete root filesystem"]
          [ "This command can cause irreversible system damage";
            "Consider alternatives or seek expert help" ]).
Proof.
  apply (absolute_rm_is_reported_as_root "cd /srv; RM -rf /srv/cache/old" None).
  reflexivity.
Defined.
